(** * A shallow embedding of [search_data.py] (webSearchEngine)

    The module fetches DuckDuckGo hits, gates each one through robots.txt,
    extracts text from PDF / image / HTML responses and scores the text
    with a zero-shot classifier.  Every library call that touches the
    outside world (DuckDuckGo, [requests.get], pdfplumber, pdf2image,
    pytesseract, BeautifulSoup, the robots.txt parser, the transformers
    pipeline) is a field of the record [world]; the Python code around them
    is translated line by line into a writer/exception monad [M] whose trace
    records every external call and every diagnostic [print].

    Python strings are modelled as [list ascii]; [str.lower], [str.strip],
    [str.split(" ")], [in], [endswith], ["sep".join] and
    [re.sub(r"\s+", " ", _)] are written out below over that type. *)

From Stdlib Require Import List Ascii String Bool Arith ZArith QArith Lia.
Import ListNotations.
Open Scope list_scope.

(** ** Python strings *)

Definition pystr := list ascii.
Definition str (s : string) : pystr := list_ascii_of_string s.

Fixpoint str_eqb (a b : pystr) : bool :=
  match a, b with
  | [], [] => true
  | x :: a', y :: b' => Ascii.eqb x y && str_eqb a' b'
  | _, _ => false
  end.

(** [str.isspace] restricted to ASCII: \t \n \v \f \r, the separators
    \x1c-\x1f and the space.  Python's [re] [\s] on a [str] pattern matches
    the same characters. *)
Definition is_space (c : ascii) : bool :=
  let n := nat_of_ascii c in
  ((9 <=? n) && (n <=? 13)) || ((28 <=? n) && (n <=? 32)).

(** [not s.strip()]: the string is empty or whitespace only. *)
Definition blank (s : pystr) : bool := forallb is_space s.

Definition lower_char (c : ascii) : ascii :=
  let n := nat_of_ascii c in
  if (65 <=? n) && (n <=? 90) then ascii_of_nat (n + 32) else c.

(** [s.lower()] *)
Definition lower (s : pystr) : pystr := map lower_char s.

Fixpoint prefixb (p s : pystr) : bool :=
  match p, s with
  | [], _ => true
  | x :: p', y :: s' => Ascii.eqb x y && prefixb p' s'
  | _ :: _, [] => false
  end.

(** [needle in hay] *)
Fixpoint contains (needle hay : pystr) : bool :=
  match hay with
  | [] => prefixb needle []
  | _ :: hay' => prefixb needle hay || contains needle hay'
  end.

(** [s.endswith(suf)] *)
Definition endswith (s suf : pystr) : bool := prefixb (rev suf) (rev s).

(** [s.split(" ")]: splits on every single space, keeping empty pieces. *)
Fixpoint split_aux (cur s : pystr) : list pystr :=
  match s with
  | [] => [rev cur]
  | c :: s' =>
      if Ascii.eqb c " " then rev cur :: split_aux [] s'
      else split_aux (c :: cur) s'
  end.
Definition split_space (s : pystr) : list pystr := split_aux [] s.

(** [sep.join(xs)] *)
Fixpoint join (sep : pystr) (xs : list pystr) : pystr :=
  match xs with
  | [] => []
  | [x] => x
  | x :: xs' => x ++ sep ++ join sep xs'
  end.

Fixpoint lstrip (s : pystr) : pystr :=
  match s with
  | c :: s' => if is_space c then lstrip s' else s
  | [] => []
  end.

(** [s.strip()] *)
Definition py_strip (s : pystr) : pystr := rev (lstrip (rev (lstrip s))).

(** [re.sub(r"\s+", " ", s)]: every maximal run of whitespace becomes one
    space; [in_run] is true while inside a run already replaced. *)
Fixpoint sub_ws (in_run : bool) (s : pystr) : pystr :=
  match s with
  | [] => []
  | c :: s' =>
      if is_space c then
        (if in_run then sub_ws true s' else " "%char :: sub_ws true s')
      else c :: sub_ws false s'
  end.

(** [re.sub(r"\s+", " ", text).strip()], the normalisation every
    extractor applies. *)
Definition normalize_ws (s : pystr) : pystr := py_strip (sub_ws false s).

(** [re.search(r"\.(png|jpe?g|gif|bmp|tif)$", s)]: the pattern is anchored
    by [$], which in Python (without MULTILINE) matches at the end of the
    string and also just before a newline that ends the string. *)
Definition image_exts : list pystr :=
  [str "png"; str "jpg"; str "jpeg"; str "gif"; str "bmp"; str "tif"].
Definition re_search_image_suffix (s : pystr) : bool :=
  existsb (fun ext => endswith s (str "." ++ ext)
                      || endswith s (str "." ++ ext ++ ["010"%char]))
          image_exts.

(** ** Exceptions, events and the writer/exception monad *)

Definition bytes := list Byte.byte.

(** A rasterised page or decoded picture, as handed to Tesseract. *)
Inductive image := Image (pixels : bytes).

Inductive exn :=
| RequestException   (* requests.exceptions.RequestException: connection, timeout *)
| ValueError
| IndexError
| OtherException.    (* any other library failure (parse errors, decoding, ...) *)

Inductive res (A : Type) := Ok (a : A) | Err (e : exn).
Arguments Ok {A} a.
Arguments Err {A} e.

(** The diagnostics the code [print]s. *)
Inductive diag :=
| DHttpError (status : Z)
| DPlumberFailed
| DPlumberNoText
| DPdfToImageFailed
| DOcrFailed
| DImageOcrFailed
| DUnknownContentType (ct : pystr)
| DConnectionFailed (url : pystr)
| DFetchFailed (url : pystr)
| DRobotsDenied (url : pystr)
| DSkipped (url : pystr).

(** Calls to the outside world, in the order the code makes them. *)
Inductive event :=
| EvSearch (query : pystr) (max_results : nat)
| EvGet (url : pystr) (timeout : Z)
| EvRobotsParse (robots_txt : pystr) (url : pystr)
| EvPdfOpen (b : bytes)
| EvConvert (b : bytes)
| EvImageOpen (b : bytes)
| EvTesseract (img : image)
| EvSoup (html : pystr)
| EvOracle (text : pystr) (labels : list pystr)
| EvDiag (d : diag).

Definition M (A : Type) : Type := (list event * res A)%type.

Definition ret {A} (a : A) : M A := ([], Ok a).

Definition bind {A B} (m : M A) (f : A -> M B) : M B :=
  match m with
  | (t, Ok a) => let (t', r) := f a in (t ++ t', r)
  | (t, Err e) => (t, Err e)
  end.

(** [try: m  except ...: h e] *)
Definition try_except {A} (m : M A) (h : exn -> M A) : M A :=
  match m with
  | (t, Err e) => let (t', r) := h e in (t ++ t', r)
  | ok => ok
  end.

Definition raise {A} (e : exn) : M A := ([], Err e).

(** A library call: record the event, then its outcome. *)
Definition call {A} (ev : event) (r : res A) : M A := ([ev], r).

Definition print (d : diag) : M unit := ([EvDiag d], Ok tt).

Notation "x <- m ;; k" := (bind m (fun x => k))
  (at level 61, m at next level, right associativity).
Notation "m ;;; k" := (bind m (fun _ => k))
  (at level 61, right associativity).

(** ** The outside world *)

(** What [requests.get] hands back: [status_code], the [Content-Type]
    header if present, and the body read as [resp.content] and as
    [resp.text] (reading a streamed body may fail). *)
Record response := {
  status_code : Z;
  content_type_header : option pystr;
  content : res bytes;
  resp_text : res pystr }.

(** The output of the transformers zero-shot pipeline:
    [result["labels"]] and [result["scores"]]. *)
Record zsc_result := { zsc_labels : list pystr; zsc_scores : list Q }.

(** A DuckDuckGo hit, a dict read with [r.get(key, "")]. *)
Record raw_hit := { r_title : option pystr; r_href : option pystr; r_body : option pystr }.

Record world := {
  ddgs_text : pystr -> nat -> res (list raw_hit);
  requests_get : pystr -> Z -> res response;
  (** [tldextract.extract(url).registered_domain] *)
  registered_domain : pystr -> pystr;
  (** whether [robotexclusionrulesparser] imported *)
  robots_parser_available : bool;
  (** [rp.parse(text); rp.is_allowed("*", url)] *)
  robots_is_allowed : pystr -> pystr -> res bool;
  (** [pdfplumber.open(...)] and [page.extract_text()] for every page *)
  pdf_pages_text : bytes -> res (list (option pystr));
  (** [convert_from_bytes(pdf_bytes, dpi=300)] *)
  convert_from_bytes : bytes -> res (list image);
  (** [Image.open(io.BytesIO(image_bytes))] *)
  image_open : bytes -> res image;
  (** [pytesseract.image_to_string(img, lang="chi_tra")] *)
  image_to_string : image -> res pystr;
  (** [BeautifulSoup(html, "html.parser")], decompose script/style/noscript,
      [get_text(separator="\n")] *)
  soup_get_text : pystr -> res pystr;
  (** [classifier(text, labels)] *)
  classifier : pystr -> list pystr -> res zsc_result }.

(** [d.get(key, "")] *)
Definition get_default (o : option pystr) : pystr :=
  match o with Some s => s | None => [] end.

(** [xs.index(x)] *)
Fixpoint py_index (xs : list pystr) (x : pystr) : res nat :=
  match xs with
  | [] => Err ValueError
  | y :: xs' => if str_eqb y x then Ok 0%nat
                else match py_index xs' x with Ok n => Ok (S n) | Err e => Err e end
  end.

(** [xs[i]] *)
Definition py_nth {A} (xs : list A) (i : nat) : res A :=
  match nth_error xs i with Some a => Ok a | None => Err IndexError end.

Definition lift {A} (r : res A) : M A := ([], r).

Section Program.

Variable w : world.

(** ** [get_relate_domain_score] *)
Definition get_relate_domain_score (text binary_labels : pystr) : M Q :=
  if blank text then ret 0%Q
  else
    let target_labels := split_space binary_labels in
    match target_labels with
    | l0 :: l1 :: _ =>
        let labels := [l0; l1] in
        result <- call (EvOracle text labels) (classifier w text labels) ;;
        relation_idx <- lift (py_index (zsc_labels result) l0) ;;
        lift (py_nth (zsc_scores result) relation_idx)
    | _ => raise ValueError
    end.

(** ** [can_crawl] *)
Definition robots_url (domain : pystr) : pystr :=
  str "http://" ++ domain ++ str "/robots.txt".

Definition can_crawl (url : pystr) : M bool :=
  if negb (robots_parser_available w) then ret true
  else
    let domain := registered_domain w url in
    if str_eqb domain [] then ret true
    else
      let rurl := robots_url domain in
      try_except
        (resp <- call (EvGet rurl 15) (requests_get w rurl 15) ;;
         if Z.eqb (status_code resp) 200 then
           txt <- lift (resp_text resp) ;;
           call (EvRobotsParse txt url) (robots_is_allowed w txt url)
         else ret true)
        (fun _ => ret true).

(** ** Extractors *)

Fixpoint keep_page_texts (pages : list (option pystr)) : list pystr :=
  match pages with
  | [] => []
  | Some t :: ps => if str_eqb t [] then keep_page_texts ps else t :: keep_page_texts ps
  | None :: ps => keep_page_texts ps
  end.

Definition parse_pdf_with_pdfplumber (pdf_bytes : bytes) : M pystr :=
  try_except
    (pages <- call (EvPdfOpen pdf_bytes) (pdf_pages_text w pdf_bytes) ;;
     let text := join [Ascii.ascii_of_nat 10] (keep_page_texts pages) in
     ret (normalize_ws text))
    (fun _ => print DPlumberFailed ;;; ret []).

Definition nl : pystr := ["010"%char].

(** The per-page loop of [parse_pdf_with_ocr]: a page whose OCR raises is
    skipped, an empty page text is dropped. *)
Fixpoint ocr_pages (images : list image) : M (list pystr) :=
  match images with
  | [] => ret []
  | img :: images' =>
      page <- try_except
                (t <- call (EvTesseract img) (image_to_string w img) ;;
                 let text := normalize_ws t in
                 ret (if str_eqb text [] then [] else [text]))
                (fun _ => print DOcrFailed ;;; ret []) ;;
      rest <- ocr_pages images' ;;
      ret (page ++ rest)
  end.

Definition parse_pdf_with_ocr (pdf_bytes : bytes) : M pystr :=
  images <- try_except
              (imgs <- call (EvConvert pdf_bytes) (convert_from_bytes w pdf_bytes) ;;
               ret (Some imgs))
              (fun _ => print DPdfToImageFailed ;;; ret None) ;;
  match images with
  | None => ret []
  | Some imgs =>
      ocr_texts <- ocr_pages imgs ;;
      ret (join nl ocr_texts)
  end.

Definition parse_image_with_ocr (image_bytes : bytes) : M pystr :=
  try_except
    (img <- call (EvImageOpen image_bytes) (image_open w image_bytes) ;;
     t <- call (EvTesseract img) (image_to_string w img) ;;
     ret (normalize_ws t))
    (fun _ => print DImageOcrFailed ;;; ret []).

(** [parse_html] has no [try] of its own: a BeautifulSoup failure
    propagates to the caller. *)
Definition parse_html (html_text : pystr) : M pystr :=
  t <- call (EvSoup html_text) (soup_get_text w html_text) ;;
  ret (normalize_ws t).

(** ** [fetch_full_text_requests] *)
Definition fetch_full_text_requests (url : pystr) (timeout : Z) : M pystr :=
  try_except
    (resp <- call (EvGet url timeout) (requests_get w url timeout) ;;
     if negb (Z.eqb (status_code resp) 200) then
       print (DHttpError (status_code resp)) ;;; ret []
     else
       let content_type := lower (get_default (content_type_header resp)) in
       content_bytes <- lift (content resp) ;;
       if contains (str "pdf") content_type || endswith (lower url) (str ".pdf") then
         text <- parse_pdf_with_pdfplumber content_bytes ;;
         if blank text then
           print DPlumberNoText ;;;
           parse_pdf_with_ocr content_bytes
         else ret text
       else if contains (str "image") content_type
               || re_search_image_suffix (lower url) then
         parse_image_with_ocr content_bytes
       else if contains (str "html") content_type then
         html_text <- lift (resp_text resp) ;;
         parse_html html_text
       else
         print (DUnknownContentType content_type) ;;; ret [])
    (fun e => match e with
              | RequestException => print (DConnectionFailed url) ;;; ret []
              | _ => print (DFetchFailed url) ;;; ret []
              end).

(** ** [fetch_full_text]; [USE_SELENIUM = False], so the Selenium branch
    (and [fetch_full_text_selenium], only defined under the flag) is never
    taken and is not modelled. *)
Definition fetch_full_text (url : pystr) (timeout : Z) : M pystr :=
  allowed <- can_crawl url ;;
  if negb allowed then print (DRobotsDenied url) ;;; ret []
  else fetch_full_text_requests url timeout.

(** ** [search_duckduckgo] *)
Record result_record := {
  title : pystr; link : pystr; snippet : pystr; full_text : pystr;
  academic_score : Q }.

Fixpoint process_hits (binary_labels : pystr) (raw_results : list raw_hit)
  : M (list result_record) :=
  match raw_results with
  | [] => ret []
  | r :: rs =>
      let t := get_default (r_title r) in
      let l := get_default (r_href r) in
      let s := get_default (r_body r) in
      ft <- fetch_full_text l 10 ;;
      if str_eqb ft [] then
        print (DSkipped l) ;;; process_hits binary_labels rs
      else
        relate_score <- get_relate_domain_score ft binary_labels ;;
        rest <- process_hits binary_labels rs ;;
        ret ({| title := t; link := l; snippet := s; full_text := ft;
                academic_score := relate_score |} :: rest)
  end.

Definition search_duckduckgo (query binary_labels : pystr) (max_results : nat)
  : M (list result_record) :=
  raw_results <- call (EvSearch query max_results) (ddgs_text w query max_results) ;;
  process_hits binary_labels raw_results.

End Program.

(** ** [main]

    The console side of [main]: the lines [input()] reads, [int(...)] on a
    non-empty count line (DDGS's [max_results] is a natural number in this
    development, so [int] is a parser into [nat]), and the
    [open(...)] / [json.dump(...)] of the results.  [input()] at end of
    input raises [EOFError], here [OtherException]. *)
Inductive main_msg :=
| MEmptyQuery
| MStart (query : pystr) (max_results : nat)
| MNoResults
| MDone (count : nat).

Inductive console_event :=
| CInput (prompt : nat)
| CPrint (m : main_msg)
| CRun (trace : list event)
| CDump (filename : pystr) (results : list result_record).

Record console := {
  stdin : list pystr;
  int_of_str : pystr -> res nat;
  json_dump : pystr -> list result_record -> res unit }.

(** [int(input(...) or 5)] once the line is read *)
Definition main_count (c : console) (line : pystr) : res nat :=
  if str_eqb line [] then Ok 5%nat else int_of_str c line.

Definition main (w : world) (c : console) : list console_event * res unit :=
  match stdin c with
  | [] => ([CInput 0], Err OtherException)
  | query :: rest1 =>
      if blank query then ([CInput 0; CPrint MEmptyQuery], Ok tt)
      else
        match rest1 with
        | [] => ([CInput 0; CInput 1], Err OtherException)
        | binary_labels :: rest2 =>
            match rest2 with
            | [] => ([CInput 0; CInput 1; CInput 2], Err OtherException)
            | count :: _ =>
                let reads := [CInput 0; CInput 1; CInput 2] in
                match main_count c count with
                | Err e => (reads, Err e)
                | Ok max_results =>
                    let (tr, r) := search_duckduckgo w query binary_labels max_results in
                    let pre := reads ++ [CPrint (MStart query max_results); CRun tr] in
                    match r with
                    | Err e => (pre, Err e)
                    | Ok [] => (pre ++ [CPrint MNoResults], Ok tt)
                    | Ok results =>
                        let f := str "all_search_results.json" in
                        match json_dump c f results with
                        | Err e => (pre ++ [CDump f results], Err e)
                        | Ok _ => (pre ++ [CDump f results;
                                           CPrint (MDone (List.length results))], Ok tt)
                        end
                    end
                end
            end
        end
  end.

(** ** Format dispatch of [fetch_full_text_requests], read off its
    [if]/[elif] chain on the lowered header and lowered url. *)
Inductive format := PDF | IMAGE | HTML | UNKNOWN.

Definition format_eq_dec (a b : format) : {a = b} + {a <> b}.
Proof. decide equality. Defined.

Definition dispatch_format (content_type_value url : pystr) : format :=
  let content_type := lower content_type_value in
  if contains (str "pdf") content_type || endswith (lower url) (str ".pdf") then PDF
  else if contains (str "image") content_type || re_search_image_suffix (lower url) then IMAGE
  else if contains (str "html") content_type then HTML
  else UNKNOWN.

(** The decision order as the specification words it: a url "ends in" one
    of the raster suffixes [.png .jpg .jpeg .gif .bmp .tif]; all checks
    case-insensitive. *)
Definition spec_format (content_type_value url : pystr) : format :=
  let content_type := lower content_type_value in
  if contains (str "pdf") content_type || endswith (lower url) (str ".pdf") then PDF
  else if contains (str "image") content_type
          || existsb (fun ext => endswith (lower url) (str "." ++ ext)) image_exts then IMAGE
  else if contains (str "html") content_type then HTML
  else UNKNOWN.

(** ** A concrete world, used by the witnesses below *)
Module Sample.

Definition pdf_url := str "http://example.com/a.pdf".
Definition blocked_url := str "http://blocked.example/x".
Definition pdf_bytes : bytes := [Byte.x25; Byte.x50; Byte.x44; Byte.x46].
Definition scanned_bytes : bytes := [Byte.x25].

Definition hits : list raw_hit :=
  [ {| r_title := Some (str "A"); r_href := Some pdf_url; r_body := Some (str "a pdf") |};
    {| r_title := Some (str "X"); r_href := Some blocked_url; r_body := None |} ].

Definition scan_url := str "http://example.com/scan.pdf".

Definition robots_resp : response :=
  {| status_code := 200; content_type_header := Some (str "text/plain");
     content := Ok []; resp_text := Ok (str "User-agent: * Disallow: /") |}.
Definition pdf_resp : response :=
  {| status_code := 200; content_type_header := Some (str "application/pdf");
     content := Ok pdf_bytes; resp_text := Ok [] |}.
Definition scan_resp : response :=
  {| status_code := 200; content_type_header := None;
     content := Ok scanned_bytes; resp_text := Ok [] |}.

Definition get (url : pystr) (timeout : Z) : res response :=
  if str_eqb url (str "http://blocked.example/robots.txt") then Ok robots_resp
  else if str_eqb url pdf_url then Ok pdf_resp
  else if str_eqb url scan_url then Ok scan_resp
  else Err RequestException.

Definition domain (url : pystr) : pystr :=
  if prefixb (str "http://example.com/") url then str "example.com"
  else if prefixb (str "http://blocked.example/") url then str "blocked.example"
  else [].

Definition w0 : world := {|
  ddgs_text := fun _ _ => Ok hits;
  requests_get := get;
  registered_domain := domain;
  robots_parser_available := true;
  robots_is_allowed := fun txt _ => Ok (negb (contains (str "Disallow: /") txt));
  pdf_pages_text := fun b =>
    if Nat.eqb (List.length b) 4 then Ok [Some (str "Hello" ++ nl ++ str "World"); None]
    else Ok [None];
  convert_from_bytes := fun b => Ok [Image b; Image b];
  image_open := fun b => Ok (Image b);
  image_to_string := fun _ => Ok (str "  page   one" ++ nl);
  soup_get_text := fun h => Ok h;
  classifier := fun _ ls =>
    Ok {| zsc_labels := ls; zsc_scores := map (fun _ => 1#2) ls |} |}.

End Sample.

(** * Properties *)

From Stdlib Require Import Sorting.Permutation.

(** ** String lemmas *)

Lemma str_eqb_spec (a b : pystr) : str_eqb a b = true <-> a = b.
Proof.
  revert b; induction a as [|x a IH]; intros [|y b]; simpl; try (split; congruence).
  rewrite andb_true_iff, IH, Ascii.eqb_eq. split; [intros [-> ->]; reflexivity|].
  intros H; inversion H; auto.
Qed.

Lemma str_eqb_refl (a : pystr) : str_eqb a a = true.
Proof. apply str_eqb_spec; reflexivity. Qed.

(** Whitespace-normal form: the only whitespace character is the space,
    no two whitespace characters are adjacent, none at either end. *)
Definition only_space_ws (s : pystr) : bool :=
  forallb (fun c => negb (is_space c) || Ascii.eqb c " ") s.

Fixpoint no_ws_pair (s : pystr) : bool :=
  match s with
  | a :: ((b :: _) as s') => negb (is_space a && is_space b) && no_ws_pair s'
  | _ => true
  end.

Definition head_ok (s : pystr) : bool :=
  match s with c :: _ => negb (is_space c) | [] => true end.

Definition ws_normalized (s : pystr) : bool :=
  only_space_ws s && no_ws_pair s && head_ok s && head_ok (rev s).

Definition head_space (s : pystr) : bool :=
  match s with c :: _ => is_space c | [] => false end.

Lemma no_ws_pair_cons a s :
  no_ws_pair (a :: s) = negb (is_space a && head_space s) && no_ws_pair s.
Proof. destruct s; simpl; [rewrite andb_false_r; reflexivity | reflexivity]. Qed.

Lemma head_space_snoc l (z : ascii) :
  head_space (l ++ [z]) = match l with [] => is_space z | _ => head_space l end.
Proof. destruct l; reflexivity. Qed.

Lemma no_ws_pair_app x y :
  no_ws_pair (x ++ y) =
  no_ws_pair x && no_ws_pair y && negb (head_space (rev x) && head_space y).
Proof.
  induction x as [|a x IH].
  - simpl. destruct (no_ws_pair y); reflexivity.
  - change ((a :: x) ++ y) with (a :: (x ++ y)).
    rewrite !no_ws_pair_cons, IH. simpl rev. rewrite head_space_snoc.
    destruct x as [|b x].
    + simpl. destruct (is_space a), (head_space y), (no_ws_pair y); reflexivity.
    + assert (Hr : rev (b :: x) <> []) by (simpl; destruct (rev x); discriminate).
      destruct (rev (b :: x)) eqn:E; [contradiction|].
      simpl. destruct (is_space a), (is_space b), (is_space a0), (head_space y),
        (no_ws_pair (b :: x)), (no_ws_pair y); reflexivity.
Qed.

Lemma no_ws_pair_rev s : no_ws_pair (rev s) = no_ws_pair s.
Proof.
  induction s as [|a s IH]; [reflexivity|].
  simpl rev. rewrite no_ws_pair_app, IH, rev_involutive, (no_ws_pair_cons a s).
  change (no_ws_pair [a]) with true. change (head_space [a]) with (is_space a).
  destruct (head_space s), (is_space a), (no_ws_pair s); reflexivity.
Qed.

Lemma no_ws_pair_app_r x y : no_ws_pair (x ++ y) = true -> no_ws_pair y = true.
Proof. rewrite no_ws_pair_app. intros H. repeat (apply andb_true_iff in H as [H ?]); auto.
Qed.

Lemma only_space_ws_app x y :
  only_space_ws (x ++ y) = only_space_ws x && only_space_ws y.
Proof. unfold only_space_ws. apply forallb_app. Qed.

Lemma only_space_ws_rev s : only_space_ws (rev s) = only_space_ws s.
Proof.
  induction s as [|a s IH]; [reflexivity|].
  simpl. rewrite only_space_ws_app, IH. simpl. rewrite andb_true_r, andb_comm. reflexivity.
Qed.

Lemma sub_ws_only_space b s : only_space_ws (sub_ws b s) = true.
Proof.
  revert b; induction s as [|c s IH]; intros b; simpl; [reflexivity|].
  destruct (is_space c) eqn:Hc; [destruct b; simpl; rewrite ?IH; reflexivity|].
  simpl. rewrite Hc, IH. reflexivity.
Qed.

Lemma sub_ws_pairs b s :
  no_ws_pair (sub_ws b s) = true /\ (b = true -> head_ok (sub_ws b s) = true).
Proof.
  revert b; induction s as [|c s IH]; intros b; simpl; [split; reflexivity|].
  destruct (is_space c) eqn:Hc.
  - destruct b.
    + apply IH.
    + split; [|discriminate]. destruct (IH true) as [H1 H2].
      rewrite no_ws_pair_cons, H1, andb_true_r.
      specialize (H2 eq_refl). destruct (sub_ws true s); simpl in *; [reflexivity|].
      destruct (is_space a); [discriminate|reflexivity].
  - destruct (IH false) as [H1 _]. split.
    + rewrite no_ws_pair_cons, Hc, H1. reflexivity.
    + intros _; simpl; rewrite Hc; reflexivity.
Qed.

Lemma lstrip_suffix s : exists p, s = p ++ lstrip s.
Proof.
  induction s as [|c s IH]; simpl; [exists []; reflexivity|].
  destruct (is_space c); [destruct IH as [p Hp]; exists (c :: p); simpl; congruence|].
  exists []; reflexivity.
Qed.

Lemma lstrip_head s : head_ok (lstrip s) = true.
Proof.
  induction s as [|c s IH]; simpl; [reflexivity|].
  destruct (is_space c) eqn:Hc; [exact IH|]. simpl; rewrite Hc; reflexivity.
Qed.

Lemma head_ok_app_l x y : head_ok (x ++ y) = true -> head_ok x = true.
Proof. destruct x; simpl; auto. Qed.

Lemma normalize_when s :
  only_space_ws s = true -> no_ws_pair s = true -> ws_normalized (py_strip s) = true.
Proof.
  intros Ho Hn. unfold py_strip, ws_normalized.
  destruct (lstrip_suffix s) as [p Hp].
  set (y := lstrip s) in *.
  destruct (lstrip_suffix (rev y)) as [q Hq].
  set (z := lstrip (rev y)) in *.
  assert (Hyo : only_space_ws y = true)
    by (rewrite Hp, only_space_ws_app in Ho; apply andb_true_iff in Ho; tauto).
  assert (Hyn : no_ws_pair y = true) by (rewrite Hp in Hn; eapply no_ws_pair_app_r; eauto).
  assert (Hzo : only_space_ws z = true).
  { rewrite <- only_space_ws_rev, Hq, only_space_ws_app in Hyo.
    apply andb_true_iff in Hyo; tauto. }
  assert (Hzn : no_ws_pair z = true).
  { rewrite <- no_ws_pair_rev, Hq in Hyn. eapply no_ws_pair_app_r; eauto. }
  rewrite only_space_ws_rev, no_ws_pair_rev, rev_involutive, Hzo, Hzn. simpl.
  assert (Hy : head_ok y = true) by apply lstrip_head.
  rewrite <- (rev_involutive y), Hq, rev_app_distr in Hy.
  rewrite (head_ok_app_l _ _ Hy). apply lstrip_head.
Qed.

Lemma normalize_ws_normalized s : ws_normalized (normalize_ws s) = true.
Proof.
  apply normalize_when; [apply sub_ws_only_space | apply (sub_ws_pairs false s)].
Qed.

Lemma blank_app x y : blank (x ++ y) = blank x && blank y.
Proof. apply forallb_app. Qed.

Lemma normalized_nonblank s : ws_normalized s = true -> s <> [] -> blank s = false.
Proof.
  destruct s as [|c s]; [congruence|]. unfold ws_normalized. simpl head_ok.
  intros H _. destruct (is_space c) eqn:Hc; [rewrite !andb_false_r in H; discriminate|].
  simpl. rewrite Hc. reflexivity.
Qed.

Lemma join_nonblank sep pages :
  Forall (fun p => ws_normalized p = true /\ p <> []) pages ->
  join sep pages = [] \/ blank (join sep pages) = false.
Proof.
  intros H. destruct H as [|p ps [Hn Hne] _]; [left; reflexivity|right].
  assert (Hp : blank p = false) by (apply normalized_nonblank; auto).
  destruct ps; simpl; [exact Hp|]. rewrite blank_app, Hp. reflexivity.
Qed.

(** ** The extractors *)

Definition no_convert (tr : list event) : Prop := forall b, ~ In (EvConvert b) tr.

Section Extractors.
Variable w : world.

Lemma parse_pdf_with_pdfplumber_ok b :
  exists tr s, parse_pdf_with_pdfplumber w b = (tr, Ok s)
               /\ ws_normalized s = true /\ no_convert tr.
Proof.
  unfold parse_pdf_with_pdfplumber, try_except, bind, call, print, ret.
  destruct (pdf_pages_text w b) as [pages|e]; simpl.
  - eexists _, _; split; [reflexivity|]. split; [apply normalize_ws_normalized|].
    intros b' [H|[]]; discriminate.
  - eexists _, _; split; [reflexivity|]. split; [reflexivity|].
    intros b' [H|[H|[]]]; discriminate.
Qed.

Lemma ocr_pages_ok imgs :
  exists tr pages, ocr_pages w imgs = (tr, Ok pages)
                   /\ Forall (fun p => ws_normalized p = true /\ p <> []) pages.
Proof.
  induction imgs as [|img imgs IH]; simpl.
  - eexists _, _; split; [reflexivity|constructor].
  - destruct IH as (tr & pages & Heq & Hall).
    unfold try_except, bind, call, print, ret at 1.
    destruct (image_to_string w img) as [t|e]; simpl.
    + destruct (str_eqb (normalize_ws t) []) eqn:E; simpl; rewrite Heq;
        eexists _, _; (split; [reflexivity|]); simpl; auto.
      constructor; [split; [apply normalize_ws_normalized|]|exact Hall].
      intros H; rewrite H in E; discriminate.
    + rewrite Heq. eexists _, _; split; [reflexivity|exact Hall].
Qed.

Lemma parse_pdf_with_ocr_ok b :
  exists tr pages, parse_pdf_with_ocr w b = (EvConvert b :: tr, Ok (join nl pages))
                   /\ Forall (fun p => ws_normalized p = true /\ p <> []) pages.
Proof.
  unfold parse_pdf_with_ocr, try_except, bind, call, print, ret at 1.
  destruct (convert_from_bytes w b) as [imgs|e]; simpl.
  - destruct (ocr_pages_ok imgs) as (tr & pages & -> & Hall).
    eexists _, _; split; [reflexivity|exact Hall].
  - exists [EvDiag DPdfToImageFailed], []. split; [reflexivity|constructor].
Qed.

Lemma parse_image_with_ocr_ok b :
  exists tr s, parse_image_with_ocr w b = (tr, Ok s) /\ ws_normalized s = true.
Proof.
  unfold parse_image_with_ocr, try_except, bind, call, print, ret.
  destruct (image_open w b) as [img|e]; simpl.
  - destruct (image_to_string w img) as [t|e]; simpl;
      (eexists _, _; split; [reflexivity|]); [apply normalize_ws_normalized|reflexivity].
  - eexists _, _; split; [reflexivity|reflexivity].
Qed.

Lemma parse_html_normalized h :
  match snd (parse_html w h) with Ok s => ws_normalized s = true | Err _ => True end.
Proof.
  unfold parse_html, bind, call, ret.
  destruct (soup_get_text w h); simpl; [apply normalize_ws_normalized|exact I].
Qed.

End Extractors.

(** ** The fetcher, branch by branch *)

Section Fetcher.
Variable w : world.

(** Case analysis on every outcome the world can hand back. *)
Ltac split_world :=
  cbn; repeat (match goal with
         | |- context [if ?b then _ else _] => destruct b
         | |- context [pdf_pages_text ?w ?b] => destruct (pdf_pages_text w b)
         | |- context [convert_from_bytes ?w ?b] => destruct (convert_from_bytes w b)
         | |- context [ocr_pages ?w ?l] => destruct (ocr_pages w l)
         | |- context [image_open ?w ?b] => destruct (image_open w b)
         | |- context [image_to_string ?w ?i] => destruct (image_to_string w i)
         | |- context [soup_get_text ?w ?h] => destruct (soup_get_text w h)
         | |- context [resp_text ?r] => destruct (resp_text r)
         | |- context [match ?r with Ok _ => _ | Err _ => _ end] => destruct r
         end; cbn); try reflexivity.

(** The body of each branch of the [if]/[elif] chain, once a 200 response
    and its bytes are in hand. *)
Definition extract_branch (fmt : format) (resp : response) (content_bytes : bytes)
  : M pystr :=
  match fmt with
  | PDF =>
      text <- parse_pdf_with_pdfplumber w content_bytes ;;
      if blank text then print DPlumberNoText ;;; parse_pdf_with_ocr w content_bytes
      else ret text
  | IMAGE => parse_image_with_ocr w content_bytes
  | HTML => html_text <- lift (resp_text resp) ;; parse_html w html_text
  | UNKNOWN =>
      print (DUnknownContentType (lower (get_default (content_type_header resp)))) ;;; ret []
  end.

Definition fetch_handler (url : pystr) (e : exn) : M pystr :=
  match e with
  | RequestException => print (DConnectionFailed url) ;;; ret []
  | _ => print (DFetchFailed url) ;;; ret []
  end.

Lemma fetch_full_text_requests_200 url timeout resp bts :
  requests_get w url timeout = Ok resp -> status_code resp = 200%Z -> content resp = Ok bts ->
  fetch_full_text_requests w url timeout =
  try_except
    (bind (call (EvGet url timeout) (Ok resp))
          (fun _ => extract_branch
                      (dispatch_format (get_default (content_type_header resp)) url)
                      resp bts))
    (fetch_handler url).
Proof.
  intros Hget Hst Hc. unfold fetch_full_text_requests, dispatch_format, extract_branch.
  rewrite Hget. cbn [bind call]. rewrite Hst. cbn [Z.eqb Pos.eqb negb]. rewrite Hc.
  cbn [bind lift app].
  unfold parse_pdf_with_pdfplumber, parse_pdf_with_ocr, parse_image_with_ocr, parse_html.
  split_world.
Qed.

Definition fetched_shape (s : pystr) : Prop := s = [] \/ blank s = false.

Lemma extract_branch_ok fmt resp bts :
  fmt <> HTML ->
  exists tr s, extract_branch fmt resp bts = (tr, Ok s) /\ fetched_shape s.
Proof.
  intros Hf. destruct fmt; simpl; [| | congruence |].
  - destruct (parse_pdf_with_pdfplumber_ok w bts) as (tr & s & -> & Hn & _).
    unfold bind at 1.
    destruct (blank s) eqn:Hb.
    + destruct (parse_pdf_with_ocr_ok w bts) as (tr' & pages & Heq & Hall).
      simpl. rewrite Heq. simpl.
      eexists _, _; split; [reflexivity|]. apply join_nonblank; exact Hall.
    + simpl. eexists _, _; split; [reflexivity|right; exact Hb].
  - destruct (parse_image_with_ocr_ok w bts) as (tr & s & -> & Hn).
    eexists _, _; split; [reflexivity|].
    destruct s as [|c s]; [left; reflexivity|right].
    apply normalized_nonblank; [exact Hn|discriminate].
  - eexists _, _; split; [reflexivity|left; reflexivity].
Qed.

Lemma fetch_handler_diag url e :
  exists d, fetch_handler url e = ([EvDiag d] ++ [], Ok []).
Proof. destruct e; eexists; reflexivity. Qed.

Lemma fetched_shape_normalize t : fetched_shape (normalize_ws t).
Proof.
  unfold fetched_shape. destruct (normalize_ws t) as [|c s] eqn:E; [left; reflexivity|right].
  apply normalized_nonblank; [rewrite <- E; apply normalize_ws_normalized|discriminate].
Qed.

Lemma fetched_shape_nil : fetched_shape [].
Proof. left; reflexivity. Qed.

Lemma fetch_full_text_requests_ok url timeout :
  exists tr s, fetch_full_text_requests w url timeout = (tr, Ok s) /\ fetched_shape s.
Proof.
  destruct (requests_get w url timeout) as [resp|e] eqn:Hget.
  - destruct (Z.eqb (status_code resp) 200) eqn:Hst.
    + apply Z.eqb_eq in Hst.
      destruct (content resp) as [bts|e] eqn:Hc.
      * rewrite (fetch_full_text_requests_200 url timeout resp bts Hget Hst Hc).
        set (fmt := dispatch_format _ url).
        destruct (format_eq_dec fmt HTML) as [Hh|Hh].
        -- rewrite Hh. unfold extract_branch, parse_html. split_world;
             try (unfold fetch_handler; match goal with e : exn |- _ => destruct e end; cbn);
             eexists _, _; (split; [reflexivity|]);
             first [apply fetched_shape_normalize | apply fetched_shape_nil].
        -- destruct (extract_branch_ok fmt resp bts Hh) as (tr & s & Heq & Hs).
           unfold try_except, bind at 1, call. rewrite Heq.
           eexists _, _; split; [reflexivity|exact Hs].
      * unfold fetch_full_text_requests. rewrite Hget. cbn [bind call].
        rewrite Hst. cbn [Z.eqb Pos.eqb negb]. rewrite Hc.
        destruct e; cbn; eexists _, _; (split; [reflexivity|apply fetched_shape_nil]).
    + unfold fetch_full_text_requests. rewrite Hget. cbn [bind call].
      rewrite Hst. cbn.
      eexists _, _; split; [reflexivity|apply fetched_shape_nil].
  - unfold fetch_full_text_requests. rewrite Hget. cbn.
    destruct e; cbn; eexists _, _; (split; [reflexivity|apply fetched_shape_nil]).
Qed.

End Fetcher.

(** ** Claims *)

Definition robots_denies (w : world) (url : pystr) : Prop :=
  robots_parser_available w = true /\ registered_domain w url <> [] /\
  exists resp txt,
    requests_get w (robots_url (registered_domain w url)) 15 = Ok resp /\
    status_code resp = 200%Z /\ resp_text resp = Ok txt /\
    robots_is_allowed w txt url = Ok false.

(** C6: [can_crawl] never raises; on every failure path (parser not
    imported, no registered domain, robots.txt request failing or timing
    out, a non-200 status, reading or parsing the file failing) it answers
    [True]; it answers [False] exactly when a robots.txt fetched with
    status 200 forbids the wildcard agent from fetching the url. *)
Theorem can_crawl_fail_open (w : world) (url : pystr) :
  exists tr allowed, can_crawl w url = (tr, Ok allowed) /\
                     (allowed = false <-> robots_denies w url).
Proof.
  unfold can_crawl, robots_denies.
  destruct (robots_parser_available w) eqn:Ha; cbn -[robots_url];
    [|eexists _, true; split; [reflexivity|split; [discriminate|intros (H & _); discriminate]]].
  destruct (str_eqb (registered_domain w url) []) eqn:Hd; cbn -[robots_url].
  { apply str_eqb_spec in Hd. eexists _, true; split; [reflexivity|].
    split; [discriminate|intros (_ & H & _); contradiction]. }
  assert (Hd' : registered_domain w url <> []) by (intros E; rewrite E in Hd; discriminate).
  destruct (requests_get w (robots_url (registered_domain w url)) 15) as [resp|e] eqn:Hg; cbn -[robots_url].
  2:{ eexists _, true; split; [reflexivity|].
      split; [discriminate|intros (_ & _ & resp' & txt & Hg' & _); congruence]. }
  destruct (Z.eqb (status_code resp) 200) eqn:Hs; cbn -[robots_url].
  2:{ apply Z.eqb_neq in Hs. eexists _, true; split; [reflexivity|].
      split; [discriminate|intros (_ & _ & resp' & txt & Hg' & Hs' & _); congruence]. }
  apply Z.eqb_eq in Hs.
  destruct (resp_text resp) as [txt|e] eqn:Ht; cbn -[robots_url].
  2:{ eexists _, true; split; [reflexivity|].
      split; [discriminate|intros (_ & _ & resp' & txt & Hg' & Hs' & Ht' & _); congruence]. }
  destruct (robots_is_allowed w txt url) as [[|]|e] eqn:Hr; cbn -[robots_url].
  - eexists _, true; split; [reflexivity|].
    split; [discriminate|intros (_ & _ & resp' & txt' & Hg' & Hs' & Ht' & Hr'); congruence].
  - eexists _, false; split; [reflexivity|].
    split; [intros _; split; [reflexivity|split; [exact Hd'|eauto 7]] | reflexivity].
  - eexists _, true; split; [reflexivity|].
    split; [discriminate|intros (_ & _ & resp' & txt' & Hg' & Hs' & Ht' & Hr'); congruence].
Qed.

Definition empty_with_diag (m : M pystr) : Prop :=
  snd m = Ok [] /\ exists d, In (EvDiag d) (fst m).

Ltac find_diag :=
  match goal with
  | |- exists d, In (EvDiag d) ?l =>
      match l with context [EvDiag ?d] => exists d; simpl; tauto end
  end.

Ltac empty_diag := split; [reflexivity|find_diag].

(** C7: [fetch_full_text_requests] never lets an exception escape, and every
    failure (request exception or timeout, non-200 status, unreadable
    body, unsupported content type, extractor failure) ends in [""] with a
    diagnostic printed. *)
Theorem fetch_full_text_requests_never_raises (w : world) (url : pystr) (timeout : Z) :
  (exists tr s, fetch_full_text_requests w url timeout = (tr, Ok s)) /\
  (forall e, requests_get w url timeout = Err e ->
     empty_with_diag (fetch_full_text_requests w url timeout)) /\
  (forall resp, requests_get w url timeout = Ok resp -> status_code resp <> 200%Z ->
     empty_with_diag (fetch_full_text_requests w url timeout)) /\
  (forall resp e, requests_get w url timeout = Ok resp -> status_code resp = 200%Z ->
     content resp = Err e -> empty_with_diag (fetch_full_text_requests w url timeout)) /\
  (forall resp bts, requests_get w url timeout = Ok resp -> status_code resp = 200%Z ->
     content resp = Ok bts ->
     (dispatch_format (get_default (content_type_header resp)) url = UNKNOWN ->
        empty_with_diag (fetch_full_text_requests w url timeout)) /\
     (dispatch_format (get_default (content_type_header resp)) url = HTML ->
        (exists e, resp_text resp = Err e) \/
        (exists h e, resp_text resp = Ok h /\ soup_get_text w h = Err e) ->
        empty_with_diag (fetch_full_text_requests w url timeout)) /\
     (dispatch_format (get_default (content_type_header resp)) url = IMAGE ->
        (exists e, image_open w bts = Err e) \/
        (exists img e, image_open w bts = Ok img /\ image_to_string w img = Err e) ->
        empty_with_diag (fetch_full_text_requests w url timeout)) /\
     (dispatch_format (get_default (content_type_header resp)) url = PDF ->
        (exists e, pdf_pages_text w bts = Err e) ->
        (exists e, convert_from_bytes w bts = Err e) ->
        empty_with_diag (fetch_full_text_requests w url timeout))).
Proof.
  split; [destruct (fetch_full_text_requests_ok w url timeout) as (tr & s & H & _); eauto|].
  split.
  { intros e Hg. unfold fetch_full_text_requests. rewrite Hg. cbn.
    destruct e; cbn; empty_diag. }
  split.
  { intros resp Hg Hs. unfold fetch_full_text_requests. rewrite Hg. cbn [bind call].
    apply Z.eqb_neq in Hs. rewrite Hs. cbn. empty_diag. }
  split.
  { intros resp e Hg Hs Hc. unfold fetch_full_text_requests. rewrite Hg. cbn [bind call].
    rewrite Hs. cbn [Z.eqb Pos.eqb negb]. rewrite Hc. destruct e; cbn; empty_diag. }
  intros resp bts Hg Hs Hc.
  rewrite (fetch_full_text_requests_200 w url timeout resp bts Hg Hs Hc).
  split; [|split; [|split]]; intros Hf; rewrite Hf; unfold extract_branch.
  - cbn. empty_diag.
  - intros [(e & He) | (h & e & Hh & He)]; unfold parse_html; cbn.
    + rewrite He; cbn. destruct e; cbn; empty_diag.
    + rewrite Hh, He; cbn. destruct e; cbn; empty_diag.
  - intros [(e & He) | (img & e & Hi & He)]; unfold parse_image_with_ocr; cbn.
    + rewrite He; cbn. empty_diag.
    + rewrite Hi; cbn. rewrite He; cbn. empty_diag.
  - intros (e1 & He1) (e2 & He2).
    unfold parse_pdf_with_pdfplumber, parse_pdf_with_ocr; cbn.
    rewrite He1; cbn. rewrite He2; cbn. empty_diag.
Qed.

(** C3: for a PDF-classified 200 response, OCR ([convert_from_bytes] on the
    same bytes, then Tesseract per page) is run exactly when the text-layer
    result is empty or whitespace only, and its result is what the fetch
    returns; otherwise the text-layer result is returned and OCR never
    runs. *)
Theorem pdf_ocr_fallback_exactly_when_blank (w : world) (url : pystr) (timeout : Z)
  (resp : response) (bts : bytes) (tp : list event) (tl : pystr) :
  requests_get w url timeout = Ok resp -> status_code resp = 200%Z -> content resp = Ok bts ->
  dispatch_format (get_default (content_type_header resp)) url = PDF ->
  parse_pdf_with_pdfplumber w bts = (tp, Ok tl) ->
  fetch_full_text_requests w url timeout =
    (if blank tl
     then (EvGet url timeout :: tp ++ EvDiag DPlumberNoText :: fst (parse_pdf_with_ocr w bts),
           snd (parse_pdf_with_ocr w bts))
     else (EvGet url timeout :: tp, Ok tl)) /\
  (In (EvConvert bts) (fst (fetch_full_text_requests w url timeout)) <-> blank tl = true).
Proof.
  intros Hg Hs Hc Hf Hp.
  destruct (parse_pdf_with_pdfplumber_ok w bts) as (tp' & tl' & Hp' & _ & Hnc).
  rewrite Hp in Hp'. injection Hp' as <- <-.
  destruct (parse_pdf_with_ocr_ok w bts) as (tr & pages & Hocr & _).
  assert (Heq : fetch_full_text_requests w url timeout =
    (if blank tl
     then (EvGet url timeout :: tp ++ EvDiag DPlumberNoText :: fst (parse_pdf_with_ocr w bts),
           snd (parse_pdf_with_ocr w bts))
     else (EvGet url timeout :: tp, Ok tl))).
  { rewrite (fetch_full_text_requests_200 w url timeout resp bts Hg Hs Hc), Hf.
    unfold extract_branch. cbn [bind call]. rewrite Hp. cbn [bind].
    destruct (blank tl); cbn [bind print ret]; [rewrite Hocr|]; cbn; rewrite ?app_nil_r;
      reflexivity. }
  split; [exact Heq|]. rewrite Heq. rewrite Hocr. cbn [fst snd].
  destruct (blank tl); split; intros H; try reflexivity; try discriminate.
  - right. apply in_or_app. right. right. left. reflexivity.
  - destruct H as [H|H]; [discriminate|]. exfalso. exact (Hnc bts H).
Qed.

(** ** The scorer *)

(** The transformers pipeline returns a probability distribution over the
    labels it was given: the same labels (reordered by score), one score in
    [[0,1]] for each. *)
Definition oracle_distribution (w : world) : Prop :=
  forall t ls, exists r, classifier w t ls = Ok r /\
    List.length (zsc_scores r) = List.length (zsc_labels r) /\
    Permutation (zsc_labels r) ls /\
    Forall (fun q => (0 <= q <= 1)%Q) (zsc_scores r).

Lemma py_index_In xs x :
  In x xs -> exists i, py_index xs x = Ok i /\ (i < List.length xs)%nat.
Proof.
  induction xs as [|y xs IH]; simpl; [tauto|].
  destruct (str_eqb y x) eqn:E; [intros _; exists 0%nat; split; [reflexivity|lia]|].
  intros [H|H]; [subst; rewrite str_eqb_refl in E; discriminate|].
  destruct (IH H) as (i & -> & Hi). exists (S i); split; [reflexivity|lia].
Qed.

Lemma py_nth_In {A} (xs : list A) i a : py_nth xs i = Ok a -> In a xs.
Proof.
  unfold py_nth. destruct (nth_error xs i) eqn:E; [|discriminate].
  intros H; injection H as ->. eapply nth_error_In; eauto.
Qed.

Lemma split_aux_no_space cur s :
  ~ In " "%char cur -> Forall (fun tok => ~ In " "%char tok) (split_aux cur s).
Proof.
  revert cur; induction s as [|c s IH]; intros cur Hcur; simpl.
  - constructor; [rewrite <- in_rev; exact Hcur|constructor].
  - destruct (Ascii.eqb c " ") eqn:E.
    + constructor; [rewrite <- in_rev; exact Hcur|apply IH; simpl; tauto].
    + apply IH. simpl. intros [H|H]; [subst; rewrite Ascii.eqb_refl in E; discriminate|auto].
Qed.

(** C4: with an oracle that returns a distribution over the labels it is
    given, every score [get_relate_domain_score] returns lies in [[0,1]],
    a score is returned whenever the label string has two tokens, and on
    empty or whitespace-only text the score is [0.0] with no call made. *)
Theorem relate_score_in_unit_interval (w : world) (t bl : pystr) :
  oracle_distribution w ->
  (forall tr s, get_relate_domain_score w t bl = (tr, Ok s) -> (0 <= s <= 1)%Q) /\
  ((2 <= List.length (split_space bl))%nat ->
     exists tr s, get_relate_domain_score w t bl = (tr, Ok s)) /\
  (blank t = true -> get_relate_domain_score w t bl = ([], Ok 0%Q)).
Proof.
  intros Hor. unfold get_relate_domain_score.
  split; [|split]; [ | |intros ->; reflexivity].
  - intros tr s. destruct (blank t).
    + intros H; injection H as _ <-. split; discriminate.
    + destruct (split_space bl) as [|l0 [|l1 rest]]; try discriminate.
      destruct (Hor t [l0; l1]) as (r & Hr & _ & _ & Hall). rewrite Hr. cbn.
      destruct (py_index (zsc_labels r) l0) as [i|e]; cbn; [|discriminate].
      destruct (py_nth (zsc_scores r) i) as [q|e] eqn:Hq; cbn; [|discriminate].
      intros H; injection H as _ <-.
      rewrite Forall_forall in Hall. apply Hall. eapply py_nth_In; eauto.
  - intros Hlen. destruct (blank t); [eexists _, _; reflexivity|].
    destruct (split_space bl) as [|l0 [|l1 rest]]; simpl in Hlen; try lia.
    destruct (Hor t [l0; l1]) as (r & Hr & Hl & Hperm & _). rewrite Hr. cbn.
    assert (Hin : In l0 (zsc_labels r))
      by (apply (Permutation_in l0 (Permutation_sym Hperm)); left; reflexivity).
    destruct (py_index_In _ _ Hin) as (i & -> & Hi). cbn.
    unfold py_nth. destruct (nth_error (zsc_scores r) i) eqn:E.
    + eexists _, _; reflexivity.
    + apply nth_error_None in E. lia.
Qed.

(** C5 (as the code has it): on non-blank text the scorer raises
    [ValueError], before calling the oracle, exactly when [split(" ")] of
    the label string gives fewer than two tokens; two equal tokens pass the
    check and reach the oracle; on blank text it returns [0.0] whatever the
    labels. *)
Theorem relate_score_label_check (w : world) (t bl : pystr) :
  (blank t = true -> get_relate_domain_score w t bl = ([], Ok 0%Q)) /\
  (blank t = false -> (List.length (split_space bl) < 2)%nat ->
     get_relate_domain_score w t bl = ([], Err ValueError)) /\
  (blank t = false -> (2 <= List.length (split_space bl))%nat ->
     exists l0 l1 tr r, split_space bl = l0 :: l1 :: skipn 2 (split_space bl) /\
       get_relate_domain_score w t bl = (EvOracle t [l0; l1] :: tr, r)).
Proof.
  unfold get_relate_domain_score. split; [|split].
  - intros ->; reflexivity.
  - intros -> Hl. destruct (split_space bl) as [|l0 [|l1 rest]]; simpl in Hl;
      [reflexivity|reflexivity|lia].
  - intros -> Hl. destruct (split_space bl) as [|l0 [|l1 rest]]; simpl in Hl; try lia.
    exists l0, l1. cbn. destruct (classifier w t [l0; l1]) as [r|e]; cbn.
    + destruct (py_index (zsc_labels r) l0); cbn; eexists _, _; split; reflexivity.
    + eexists _, _; split; reflexivity.
Qed.

(** C10: the labels are the tokens of [binary_labels.split(" ")], none of
    which contains a space; on non-blank text exactly the first two are
    sent to the oracle, later tokens play no part, and the score returned
    is [result["scores"][result["labels"].index(first token)]]. *)
Theorem relate_score_first_two_labels (w : world) (t bl l0 l1 : pystr) (rest : list pystr) :
  blank t = false -> split_space bl = l0 :: l1 :: rest ->
  get_relate_domain_score w t bl =
    ([EvOracle t [l0; l1]],
     match classifier w t [l0; l1] with
     | Ok r => match py_index (zsc_labels r) l0 with
               | Ok i => py_nth (zsc_scores r) i
               | Err e => Err e
               end
     | Err e => Err e
     end) /\
  Forall (fun tok => ~ In " "%char tok) (split_space bl).
Proof.
  intros Hb Hs. split; [|apply split_aux_no_space; simpl; tauto].
  unfold get_relate_domain_score. rewrite Hb, Hs. cbn.
  destruct (classifier w t [l0; l1]) as [r|e]; cbn; [|reflexivity].
  destruct (py_index (zsc_labels r) l0) as [i|e]; cbn; [|reflexivity].
  destruct (py_nth (zsc_scores r) i); reflexivity.
Qed.

(** ** The pipeline *)

Section Pipeline.
Variable w : world.

Lemma try_except_ret_ok {A} (m : M A) (a : A) :
  exists tr b, try_except m (fun _ => ret a) = (tr, Ok b).
Proof.
  destruct m as [t [b|e]]; cbn; eexists _, _; reflexivity.
Qed.

Lemma can_crawl_ok url : exists tr b, can_crawl w url = (tr, Ok b).
Proof.
  unfold can_crawl.
  destruct (robots_parser_available w); cbn -[robots_url try_except];
    [|eexists _, _; reflexivity].
  destruct (str_eqb (registered_domain w url) []); cbn -[robots_url try_except];
    [eexists _, _; reflexivity|].
  apply try_except_ret_ok.
Qed.

Lemma fetch_full_text_ok url timeout :
  exists tr s, fetch_full_text w url timeout = (tr, Ok s) /\ fetched_shape s.
Proof.
  unfold fetch_full_text. destruct (can_crawl_ok url) as (tr & b & ->). cbn [bind].
  destruct b; cbn.
  - destruct (fetch_full_text_requests_ok w url timeout) as (tr' & s & -> & Hs).
    eexists _, _; split; [reflexivity|exact Hs].
  - eexists _, _; split; [reflexivity|left; reflexivity].
Qed.

(** The text the gate-then-fetch step yields for a hit. *)
Definition gated_text (r : raw_hit) : pystr :=
  match snd (fetch_full_text w (get_default (r_href r)) 10) with
  | Ok s => s
  | Err _ => []
  end.

Definition survives (r : raw_hit) : bool := negb (str_eqb (gated_text r) []).

Definition hit_view (r : raw_hit) : pystr * pystr * pystr * pystr :=
  (get_default (r_title r), get_default (r_href r), get_default (r_body r), gated_text r).

Definition record_view (x : result_record) : pystr * pystr * pystr * pystr :=
  (title x, link x, snippet x, full_text x).

Lemma gated_text_eq r tr s :
  fetch_full_text w (get_default (r_href r)) 10 = (tr, Ok s) -> gated_text r = s.
Proof. unfold gated_text. intros ->. reflexivity. Qed.

Lemma process_hits_filter bl hits tr out :
  process_hits w bl hits = (tr, Ok out) ->
  map record_view out = map hit_view (filter survives hits) /\
  Forall (fun x => full_text x <> []) out.
Proof.
  revert tr out; induction hits as [|h hits IH]; intros tr out; simpl.
  - intros H; injection H as _ <-. split; [reflexivity|constructor].
  - destruct (fetch_full_text_ok (get_default (r_href h)) 10) as (tf & s & Hf & _).
    rewrite Hf. cbn [bind]. unfold survives at 1. rewrite (gated_text_eq h tf s Hf).
    destruct (str_eqb s []) eqn:E; cbn.
    + destruct (process_hits w bl hits) as [t' r'] eqn:Hp. cbn.
      intros H; injection H as _ ->. exact (IH t' out eq_refl).
    + destruct (get_relate_domain_score w s bl) as [ts [q|e]]; cbn; [|discriminate].
      destruct (process_hits w bl hits) as [t' [out'|e]] eqn:Hp; cbn; [|discriminate].
      intros H; injection H as _ <-.
      destruct (IH t' out' eq_refl) as [Hm Hne]. cbn [map]. rewrite Hm.
      assert (Hv : hit_view h = (get_default (r_title h), get_default (r_href h),
                                 get_default (r_body h), s))
        by (unfold hit_view; rewrite (gated_text_eq h tf s Hf); reflexivity).
      rewrite Hv.
      split; [reflexivity|constructor; [|exact Hne]].
      cbn. intros Hs; rewrite Hs in E; discriminate.
Qed.

End Pipeline.

(** C1: whenever [search_duckduckgo] returns, its records are, in search
    order, exactly the hits whose gated fetch gave non-empty text (title,
    link, snippet and that text), so there are at most as many records as
    hits and every record's [full_text] is non-empty. *)
Theorem search_duckduckgo_stable_filter (w : world) (q bl : pystr) (n : nat)
  (tr : list event) (out : list result_record) :
  search_duckduckgo w q bl n = (tr, Ok out) ->
  exists hits, ddgs_text w q n = Ok hits /\
    map record_view out = map (hit_view w) (filter (survives w) hits) /\
    (List.length out <= List.length hits)%nat /\
    Forall (fun x => full_text x <> []) out.
Proof.
  unfold search_duckduckgo, bind at 1, call.
  destruct (ddgs_text w q n) as [hits|e]; [|discriminate].
  destruct (process_hits w bl hits) as [t' r] eqn:Hp. intros H; injection H as _ ->.
  destruct (process_hits_filter w bl hits t' out Hp) as [Hm Hne].
  exists hits. split; [reflexivity|]. split; [exact Hm|]. split; [|exact Hne].
  rewrite <- (length_map record_view), Hm, length_map. apply filter_length_le.
Qed.

Section LazyLabelCheck.
Variable w : world.

Lemma score_rejects_short_labels t bl :
  blank t = false -> (List.length (split_space bl) < 2)%nat ->
  get_relate_domain_score w t bl = ([], Err ValueError).
Proof.
  intros Hb Hl. unfold get_relate_domain_score. rewrite Hb.
  destruct (split_space bl) as [|l0 [|l1 rest]]; simpl in Hl; [reflexivity|reflexivity|lia].
Qed.

(** What a hit that yields no text leaves in the trace. *)
Definition skip_trace (r : raw_hit) : list event :=
  fst (fetch_full_text w (get_default (r_href r)) 10)
  ++ [EvDiag (DSkipped (get_default (r_href r)))].

Definition dead (r : raw_hit) : bool := negb (survives w r).

Lemma fetch_of_hit r :
  exists tf, fetch_full_text w (get_default (r_href r)) 10 = (tf, Ok (gated_text w r))
             /\ fetched_shape (gated_text w r).
Proof.
  destruct (fetch_full_text_ok w (get_default (r_href r)) 10) as (tf & s & Hf & Hs).
  rewrite (gated_text_eq w r tf s Hf). eauto.
Qed.

Lemma process_hits_all_dead bl hits :
  forallb dead hits = true ->
  process_hits w bl hits = (List.concat (map skip_trace hits), Ok []).
Proof.
  induction hits as [|r hits IH]; simpl; [reflexivity|].
  intros H. apply andb_true_iff in H as [Hr Hrest].
  destruct (fetch_of_hit r) as (tf & Hf & _). unfold skip_trace at 1. rewrite Hf.
  unfold dead, survives in Hr. apply negb_true_iff in Hr. apply negb_false_iff in Hr.
  cbn [bind fst]. rewrite Hr. cbn. rewrite (IH Hrest). cbn.
  rewrite <- app_assoc. reflexivity.
Qed.

Lemma process_hits_first_survivor bl pre h post :
  (List.length (split_space bl) < 2)%nat ->
  forallb dead pre = true -> survives w h = true ->
  process_hits w bl (pre ++ h :: post) =
  (List.concat (map skip_trace pre) ++ fst (fetch_full_text w (get_default (r_href h)) 10),
   Err ValueError).
Proof.
  intros Hl. induction pre as [|r pre IH]; simpl; intros Hpre Hh.
  - destruct (fetch_of_hit h) as (tf & Hf & Hs). rewrite Hf.
    unfold survives in Hh. apply negb_true_iff in Hh.
    cbn [bind fst]. rewrite Hh.
    assert (Hb : blank (gated_text w h) = false).
    { destruct Hs as [Hs|Hs]; [rewrite Hs in Hh; discriminate|exact Hs]. }
    rewrite (score_rejects_short_labels _ _ Hb Hl). cbn. rewrite app_nil_r. reflexivity.
  - apply andb_true_iff in Hpre as [Hr Hrest].
    destruct (fetch_of_hit r) as (tf & Hf & _). unfold skip_trace at 1. rewrite Hf.
    unfold dead, survives in Hr. apply negb_true_iff in Hr. apply negb_false_iff in Hr.
    cbn [bind fst]. rewrite Hr. cbn. rewrite (IH Hrest Hh). cbn.
    rewrite <- !app_assoc. reflexivity.
Qed.

End LazyLabelCheck.

(** C8 (as the code has it): a label string with fewer than two tokens is
    not checked up front.  The search always runs first; when no hit yields
    text the run ends with [[]] and no error; otherwise [ValueError] is
    raised at the first hit that yields text, after the search and after
    the gate checks and fetches of every hit up to and including it. *)
Theorem search_duckduckgo_label_error_is_lazy (w : world) (q bl : pystr) (n : nat)
  (hits : list raw_hit) :
  (List.length (split_space bl) < 2)%nat -> ddgs_text w q n = Ok hits ->
  (forallb (dead w) hits = true ->
     search_duckduckgo w q bl n = (EvSearch q n :: List.concat (map (skip_trace w) hits), Ok [])) /\
  (forall pre h post, hits = pre ++ h :: post ->
     forallb (dead w) pre = true -> survives w h = true ->
     search_duckduckgo w q bl n =
       (EvSearch q n :: List.concat (map (skip_trace w) pre)
                     ++ fst (fetch_full_text w (get_default (r_href h)) 10),
        Err ValueError)).
Proof.
  intros Hl Hd. unfold search_duckduckgo, bind at 1, call. rewrite Hd. split.
  - intros Hall. cbn [bind]. rewrite (process_hits_all_dead w bl hits Hall). reflexivity.
  - intros pre h post -> Hpre Hh.
    cbn [bind]. rewrite (process_hits_first_survivor w bl pre h post Hl Hpre Hh). reflexivity.
Qed.

(** ** Extractor output *)

(** C9 (as the code has it): the HTML, PDF text-layer and image extractors
    return whitespace-normalised text (only single spaces, none at either
    end); the PDF OCR fallback returns the non-empty, normalised page texts
    joined with a newline. *)
Theorem extractors_whitespace_normalized (w : world) :
  (forall h, match snd (parse_html w h) with
             | Ok s => ws_normalized s = true
             | Err _ => True
             end) /\
  (forall b, exists tr s, parse_pdf_with_pdfplumber w b = (tr, Ok s) /\ ws_normalized s = true) /\
  (forall b, exists tr s, parse_image_with_ocr w b = (tr, Ok s) /\ ws_normalized s = true) /\
  (forall b, exists tr pages, parse_pdf_with_ocr w b = (tr, Ok (join nl pages)) /\
                              Forall (fun p => ws_normalized p = true /\ p <> []) pages).
Proof.
  split; [apply parse_html_normalized|].
  split; [intros b; destruct (parse_pdf_with_pdfplumber_ok w b) as (tr & s & H & Hn & _); eauto|].
  split; [apply parse_image_with_ocr_ok|].
  intros b. destruct (parse_pdf_with_ocr_ok w b) as (tr & pages & H & Hall). eauto.
Qed.

(** ** Format dispatch *)

Lemma endswith_newline_false s y :
  hd_error (rev y) = Some "010"%char -> hd_error (rev s) <> Some "010"%char ->
  endswith s y = false.
Proof.
  unfold endswith. destruct (rev y) as [|c r]; [discriminate|]. intros Hc Hs.
  injection Hc as ->. destruct (rev s) as [|d r']; [reflexivity|].
  change (prefixb ("010"%char :: r) (d :: r')) with (Ascii.eqb "010" d && prefixb r r').
  destruct (Ascii.eqb "010" d) eqn:E; [|reflexivity].
  apply Ascii.eqb_eq in E. subst. contradiction.
Qed.

(** Away from a trailing newline the code's dispatch is the specified one. *)
Lemma dispatch_format_spec_no_trailing_newline ct url :
  hd_error (rev (lower url)) <> Some "010"%char ->
  dispatch_format ct url = spec_format ct url.
Proof.
  intros H. unfold dispatch_format, spec_format.
  assert (Hre : re_search_image_suffix (lower url) =
                existsb (fun ext => endswith (lower url) (str "." ++ ext)) image_exts).
  { unfold re_search_image_suffix, image_exts. cbn [existsb].
    repeat match goal with
           | |- context [endswith (lower url) ?y] =>
               let E := fresh in
               assert (E : endswith (lower url) y = false)
                 by (apply endswith_newline_false; [reflexivity|exact H]);
               rewrite E; clear E
           end.
    rewrite !orb_false_r. reflexivity. }
  rewrite Hre. reflexivity.
Qed.

(** C2 (code_bug): [re.search(r"\.(png|jpe?g|gif|bmp|tif)$", ...)] also
    matches before a final newline, so a url ending in [".png\n"] served as
    [text/plain] is dispatched to the image OCR, where the specified order
    (the url does not end in an image suffix, the type names neither pdf,
    image nor html) gives UNKNOWN. *)
Theorem dispatch_format_image_suffix_before_newline :
  dispatch_format (str "text/plain") (str "http://example.com/b.png" ++ nl) = IMAGE /\
  spec_format (str "text/plain") (str "http://example.com/b.png" ++ nl) = UNKNOWN.
Proof. split; vm_compute; reflexivity. Qed.

(** ** Witnesses and counterexamples on the sample world *)

Module Witnesses.
Import Sample.

Definition pdf_record : result_record :=
  {| title := str "A"; link := pdf_url; snippet := str "a pdf";
     full_text := str "Hello World"; academic_score := 1#2 |}.

Lemma search_duckduckgo_stable_filter_witness :
  search_duckduckgo w0 (str "q") (str "Academic Other") 5 =
    (fst (search_duckduckgo w0 (str "q") (str "Academic Other") 5), Ok [pdf_record]) /\
  exists hits, ddgs_text w0 (str "q") 5 = Ok hits /\
    map record_view [pdf_record] = map (hit_view w0) (filter (survives w0) hits) /\
    (List.length [pdf_record] <= List.length hits)%nat /\
    Forall (fun x => full_text x <> []) [pdf_record].
Proof.
  assert (H : search_duckduckgo w0 (str "q") (str "Academic Other") 5 =
    (fst (search_duckduckgo w0 (str "q") (str "Academic Other") 5), Ok [pdf_record]))
    by (vm_compute; reflexivity).
  split; [exact H|].
  exact (search_duckduckgo_stable_filter w0 _ _ _ _ _ H).
Defined.

Lemma pdf_ocr_fallback_exactly_when_blank_witness :
  blank [] = true /\
  fetch_full_text_requests w0 scan_url 10 =
    (EvGet scan_url 10 :: [EvPdfOpen scanned_bytes] ++
       EvDiag DPlumberNoText :: fst (parse_pdf_with_ocr w0 scanned_bytes),
     snd (parse_pdf_with_ocr w0 scanned_bytes)) /\
  In (EvConvert scanned_bytes) (fst (fetch_full_text_requests w0 scan_url 10)).
Proof.
  destruct (pdf_ocr_fallback_exactly_when_blank w0 scan_url 10 scan_resp scanned_bytes
              [EvPdfOpen scanned_bytes] []
              eq_refl eq_refl eq_refl ltac:(vm_compute; reflexivity)
              ltac:(vm_compute; reflexivity)) as [Heq Hin].
  split; [reflexivity|]. split; [exact Heq|]. apply Hin. reflexivity.
Defined.

Lemma oracle_distribution_w0 : oracle_distribution w0.
Proof.
  intros t ls. eexists; split; [reflexivity|]. cbn.
  split; [apply length_map|]. split; [apply Permutation_refl|].
  apply Forall_forall. intros q Hq. apply in_map_iff in Hq as (x & <- & _).
  unfold Qle; simpl; lia.
Qed.

Lemma relate_score_in_unit_interval_witness :
  oracle_distribution w0 /\
  exists tr s, get_relate_domain_score w0 (str "hello") (str "a b") = (tr, Ok s).
Proof.
  split; [exact oracle_distribution_w0|].
  apply (proj1 (proj2 (relate_score_in_unit_interval w0 (str "hello") (str "a b")
                          oracle_distribution_w0))).
  simpl. lia.
Defined.

Lemma relate_score_short_labels_not_rejected :
  get_relate_domain_score w0 [] (str "a") = ([], Ok 0%Q) /\
  get_relate_domain_score w0 (str "hello") (str "x x") =
    ([EvOracle (str "hello") [str "x"; str "x"]], Ok (1#2)).
Proof. split; vm_compute; reflexivity. Qed.

Lemma relate_score_label_check_witness :
  blank (str "hello") = false /\ (List.length (split_space (str "a")) < 2)%nat /\
  get_relate_domain_score w0 (str "hello") (str "a") = ([], Err ValueError).
Proof.
  assert (H1 : blank (str "hello") = false) by reflexivity.
  assert (H2 : (List.length (split_space (str "a")) < 2)%nat) by (simpl; lia).
  split; [exact H1|]. split; [exact H2|].
  exact (proj1 (proj2 (relate_score_label_check w0 (str "hello") (str "a"))) H1 H2).
Defined.

Definition nowhere := str "http://nowhere.example/".

Lemma fetch_full_text_requests_never_raises_witness :
  requests_get w0 nowhere 10 = Err RequestException /\
  empty_with_diag (fetch_full_text_requests w0 nowhere 10).
Proof.
  assert (H : requests_get w0 nowhere 10 = Err RequestException) by (vm_compute; reflexivity).
  split; [exact H|].
  exact (proj1 (proj2 (fetch_full_text_requests_never_raises w0 nowhere 10))
           RequestException H).
Defined.

Lemma search_duckduckgo_label_error_after_network :
  exists tr, search_duckduckgo w0 (str "q") (str "x") 5 = (tr, Err ValueError) /\
             In (EvSearch (str "q") 5) tr /\ In (EvGet pdf_url 10) tr.
Proof.
  eexists. split; [vm_compute; reflexivity|].
  split; vm_compute; repeat (first [left; reflexivity | right]).
Qed.

Lemma search_duckduckgo_label_error_is_lazy_witness :
  search_duckduckgo w0 (str "q") (str "x") 5 =
    (EvSearch (str "q") 5 :: List.concat (map (skip_trace w0) [])
       ++ fst (fetch_full_text w0 pdf_url 10), Err ValueError).
Proof.
  destruct (search_duckduckgo_label_error_is_lazy w0 (str "q") (str "x") 5 hits
              ltac:(simpl; lia) eq_refl) as [_ H].
  exact (H [] (hd {| r_title := None; r_href := None; r_body := None |} hits) (tl hits)
           eq_refl eq_refl ltac:(vm_compute; reflexivity)).
Defined.

Lemma pdf_ocr_fallback_joins_pages_with_newline :
  snd (parse_pdf_with_ocr w0 scanned_bytes) = Ok (str "page one" ++ nl ++ str "page one") /\
  ws_normalized (str "page one" ++ nl ++ str "page one") = false.
Proof. split; vm_compute; reflexivity. Qed.

Lemma relate_score_first_two_labels_witness :
  get_relate_domain_score w0 (str "hello") (str "a b c") =
    ([EvOracle (str "hello") [str "a"; str "b"]],
     match classifier w0 (str "hello") [str "a"; str "b"] with
     | Ok r => match py_index (zsc_labels r) (str "a") with
               | Ok i => py_nth (zsc_scores r) i
               | Err e => Err e
               end
     | Err e => Err e
     end) /\
  Forall (fun tok => ~ In " "%char tok) (split_space (str "a b c")).
Proof.
  exact (relate_score_first_two_labels w0 (str "hello") (str "a b c") (str "a") (str "b")
           [str "c"] eq_refl eq_refl).
Defined.

End Witnesses.

(** * Further properties of the code *)

(** ** Whitespace normalisation *)

(** The characters a reader sees: everything but whitespace. *)
Definition visible (s : pystr) : pystr := filter (fun c => negb (is_space c)) s.

Lemma visible_app x y : visible (x ++ y) = visible x ++ visible y.
Proof. apply filter_app. Qed.

Lemma visible_rev s : visible (rev s) = rev (visible s).
Proof.
  induction s as [|c s IH]; [reflexivity|].
  simpl rev. rewrite visible_app, IH. unfold visible at 2 3. simpl.
  destruct (is_space c); simpl; rewrite ?app_nil_r; reflexivity.
Qed.

Lemma visible_sub_ws b s : visible (sub_ws b s) = visible s.
Proof.
  revert b; induction s as [|c s IH]; intros b; [reflexivity|].
  simpl sub_ws. unfold visible; simpl filter.
  destruct (is_space c) eqn:Hc; simpl.
  - destruct b; simpl; apply IH.
  - rewrite Hc. simpl. f_equal. apply IH.
Qed.

Lemma visible_lstrip s : visible (lstrip s) = visible s.
Proof.
  induction s as [|c s IH]; [reflexivity|].
  simpl lstrip. destruct (is_space c) eqn:Hc; [|reflexivity].
  rewrite IH. unfold visible; simpl. rewrite Hc. reflexivity.
Qed.

Lemma visible_py_strip s : visible (py_strip s) = visible s.
Proof.
  unfold py_strip. rewrite visible_rev, visible_lstrip, visible_rev, visible_lstrip.
  apply rev_involutive.
Qed.

Lemma visible_normalize_ws s : visible (normalize_ws s) = visible s.
Proof. unfold normalize_ws. rewrite visible_py_strip. apply visible_sub_ws. Qed.

(** X1: [re.sub(r"\s+", " ", t).strip()] never drops, adds or reorders a
    non-whitespace character: only whitespace changes. *)
Theorem normalize_ws_keeps_visible (s : pystr) :
  visible (normalize_ws s) = visible s.
Proof. apply visible_normalize_ws. Qed.

Lemma head_ok_head_space s : head_ok s = negb (head_space s).
Proof. destruct s; reflexivity. Qed.

Lemma sub_ws_fixed b s :
  only_space_ws s = true -> no_ws_pair s = true -> (b = true -> head_ok s = true) ->
  sub_ws b s = s.
Proof.
  revert b; induction s as [|c s IH]; intros b Ho Hn Hb; [reflexivity|].
  simpl in Ho. apply andb_true_iff in Ho as [Hc Ho].
  rewrite no_ws_pair_cons in Hn. apply andb_true_iff in Hn as [Hp Hn].
  simpl sub_ws. destruct (is_space c) eqn:Hs.
  - destruct b; [specialize (Hb eq_refl); simpl in Hb; rewrite Hs in Hb; discriminate|].
    simpl in Hc. apply Ascii.eqb_eq in Hc. subst c.
    rewrite (IH true Ho Hn); [reflexivity|].
    intros _. rewrite head_ok_head_space. simpl in Hp.
    destruct (head_space s); [discriminate|reflexivity].
  - rewrite (IH false Ho Hn); [reflexivity|discriminate].
Qed.

Lemma lstrip_fixed s : head_ok s = true -> lstrip s = s.
Proof.
  destruct s as [|c s]; [reflexivity|]. simpl. destruct (is_space c); [discriminate|reflexivity].
Qed.

Lemma normalize_ws_fixed s : ws_normalized s = true -> normalize_ws s = s.
Proof.
  unfold ws_normalized. intros H.
  apply andb_true_iff in H as [H Hr]. apply andb_true_iff in H as [H Hh].
  apply andb_true_iff in H as [Ho Hn].
  unfold normalize_ws, py_strip. rewrite (sub_ws_fixed false s Ho Hn) by discriminate.
  rewrite (lstrip_fixed s Hh), (lstrip_fixed (rev s) Hr). apply rev_involutive.
Qed.

(** X2: normalisation is idempotent, and its fixed points are exactly the
    whitespace-normal strings (single spaces only, none at either end). *)
Theorem normalize_ws_idempotent (s : pystr) :
  normalize_ws (normalize_ws s) = normalize_ws s /\
  (normalize_ws s = s <-> ws_normalized s = true).
Proof.
  split; [apply normalize_ws_fixed, normalize_ws_normalized|].
  split; [intros H; rewrite <- H; apply normalize_ws_normalized | apply normalize_ws_fixed].
Qed.

Lemma lower_char_idem c : lower_char (lower_char c) = lower_char c.
Proof.
  unfold lower_char at 2 3. destruct ((65 <=? nat_of_ascii c) && (nat_of_ascii c <=? 90)) eqn:E.
  - apply andb_true_iff in E as [E1 E2]. apply Nat.leb_le in E1, E2.
    unfold lower_char. rewrite nat_ascii_embedding by lia.
    replace ((65 <=? nat_of_ascii c + 32) && (nat_of_ascii c + 32 <=? 90)) with false;
      [reflexivity|].
    symmetry. apply andb_false_iff. right. apply Nat.leb_gt. lia.
  - unfold lower_char. rewrite E. reflexivity.
Qed.

Lemma lower_idem s : lower (lower s) = lower s.
Proof.
  unfold lower. rewrite map_map. apply map_ext. apply lower_char_idem.
Qed.

(** X14: the content-type dispatch of [fetch_full_text_requests] only sees
    the lowered header and the lowered url: it is the same on inputs that
    differ only in ASCII letter case. *)
Theorem dispatch_format_case_insensitive (ct url : pystr) :
  dispatch_format ct url = dispatch_format (lower ct) (lower url).
Proof. unfold dispatch_format. rewrite !lower_idem. reflexivity. Qed.

(** ** The extractors, page by page *)

Lemma blank_visible s : blank s = true <-> visible s = [].
Proof.
  induction s as [|c s IH]; [split; reflexivity|].
  unfold blank, visible in *. simpl. destruct (is_space c); simpl; [exact IH|].
  split; discriminate.
Qed.

Lemma visible_join sep xs :
  visible sep = [] -> visible (join sep xs) = List.concat (map visible xs).
Proof.
  intros Hs. induction xs as [|x xs IH]; [reflexivity|].
  destruct xs as [|y xs]; [simpl; rewrite app_nil_r; reflexivity|].
  change (join sep (x :: y :: xs)) with (x ++ sep ++ join sep (y :: xs)).
  rewrite !visible_app, Hs, IH. reflexivity.
Qed.

Lemma keep_page_texts_visible pages :
  List.concat (map visible (keep_page_texts pages)) =
  List.concat (map (fun p => visible (get_default p)) pages).
Proof.
  induction pages as [|[t|] ps IH]; simpl; [reflexivity| |exact IH].
  destruct (str_eqb t []) eqn:E; simpl; rewrite IH; [|reflexivity].
  apply str_eqb_spec in E. subst. reflexivity.
Qed.

Lemma normalized_no_visible s : ws_normalized s = true -> visible s = [] -> s = [].
Proof.
  destruct s as [|c s]; [reflexivity|]. unfold ws_normalized, visible. simpl.
  destruct (is_space c); simpl; [rewrite !andb_false_r; discriminate|discriminate].
Qed.

Lemma plumber_ok w b pages :
  pdf_pages_text w b = Ok pages ->
  parse_pdf_with_pdfplumber w b =
    ([EvPdfOpen b], Ok (normalize_ws (join nl (keep_page_texts pages)))).
Proof. intros H. unfold parse_pdf_with_pdfplumber. rewrite H. reflexivity. Qed.

(** X3: when pdfplumber reads the pages, the text layer holds every visible
    character of every page, in page order (pages without text contribute
    nothing), in whitespace-normal form; when it raises the result is [""]
    with a diagnostic. *)
Theorem parse_pdf_with_pdfplumber_pages (w : world) (b : bytes) :
  (forall pages, pdf_pages_text w b = Ok pages ->
     exists s, parse_pdf_with_pdfplumber w b = ([EvPdfOpen b], Ok s) /\
       visible s = List.concat (map (fun p => visible (get_default p)) pages) /\
       ws_normalized s = true) /\
  (forall e, pdf_pages_text w b = Err e ->
     parse_pdf_with_pdfplumber w b = ([EvPdfOpen b; EvDiag DPlumberFailed], Ok [])).
Proof.
  split.
  - intros pages H. rewrite (plumber_ok w b pages H). eexists; split; [reflexivity|].
    split; [|apply normalize_ws_normalized].
    rewrite visible_normalize_ws, visible_join by reflexivity. apply keep_page_texts_visible.
  - intros e H. unfold parse_pdf_with_pdfplumber. rewrite H. reflexivity.
Qed.

(** X4: a PDF whose pages all have no text or whitespace-only text (a scan)
    gives exactly [""] from the text layer, which is what sends
    [fetch_full_text_requests] to the OCR fallback. *)
Theorem parse_pdf_with_pdfplumber_scanned (w : world) (b : bytes)
  (pages : list (option pystr)) :
  pdf_pages_text w b = Ok pages ->
  Forall (fun p => blank (get_default p) = true) pages ->
  parse_pdf_with_pdfplumber w b = ([EvPdfOpen b], Ok []).
Proof.
  intros H Hall. rewrite (plumber_ok w b pages H). do 2 f_equal.
  apply normalized_no_visible; [apply normalize_ws_normalized|].
  rewrite visible_normalize_ws, visible_join by reflexivity.
  rewrite keep_page_texts_visible. clear H.
  induction Hall as [|p ps Hp _ IH]; [reflexivity|].
  simpl. apply blank_visible in Hp. rewrite Hp, IH. reflexivity.
Qed.

Definition is_tesseract (e : event) : bool :=
  match e with EvTesseract _ => true | _ => false end.

Definition is_ocr_failed (e : event) : bool :=
  match e with EvDiag DOcrFailed => true | _ => false end.

Definition ocr_fails (w : world) (img : image) : bool :=
  match image_to_string w img with Ok _ => false | Err _ => true end.

(** What one page contributes to [ocr_texts]. *)
Definition ocr_page_text (w : world) (img : image) : list pystr :=
  match image_to_string w img with
  | Ok t => if str_eqb (normalize_ws t) [] then [] else [normalize_ws t]
  | Err _ => []
  end.

Lemma ocr_pages_trace w imgs :
  exists tr, ocr_pages w imgs = (tr, Ok (flat_map (ocr_page_text w) imgs)) /\
    filter is_tesseract tr = map EvTesseract imgs /\
    List.length (filter is_ocr_failed tr) = List.length (filter (ocr_fails w) imgs).
Proof.
  induction imgs as [|img imgs IH]; [exists []; split; [reflexivity|split; reflexivity]|].
  destruct IH as (tr & Heq & Ht & Hf).
  change (filter (ocr_fails w) (img :: imgs))
    with (if ocr_fails w img then img :: filter (ocr_fails w) imgs
          else filter (ocr_fails w) imgs).
  change (flat_map (ocr_page_text w) (img :: imgs))
    with (ocr_page_text w img ++ flat_map (ocr_page_text w) imgs).
  simpl ocr_pages. unfold ocr_page_text at 1, ocr_fails at 1.
  destruct (image_to_string w img) as [t|e] eqn:Ei; cbn [bind try_except call print ret];
    rewrite Heq; cbn [bind ret app].
  - eexists; split; [reflexivity|].
    rewrite app_nil_r. cbn [filter is_tesseract is_ocr_failed map].
    rewrite Ht. split; [reflexivity|exact Hf].
  - eexists; split; [reflexivity|].
    rewrite app_nil_r. cbn [filter is_tesseract is_ocr_failed map app].
    rewrite Ht. split; [reflexivity|]. cbn [List.length]. rewrite Hf. reflexivity.
Qed.

(** X5: the OCR loop attempts every page, in order, whether or not earlier
    pages failed; it prints one diagnostic per failing page; its result is
    the normalised, non-empty texts of the pages that succeeded, in page
    order. *)
Theorem ocr_pages_every_page (w : world) (imgs : list image) :
  exists tr, ocr_pages w imgs = (tr, Ok (flat_map (ocr_page_text w) imgs)) /\
    filter is_tesseract tr = map EvTesseract imgs /\
    List.length (filter is_ocr_failed tr) = List.length (filter (ocr_fails w) imgs).
Proof. apply ocr_pages_trace. Qed.

Lemma ocr_page_text_visible w img :
  List.concat (map visible (ocr_page_text w img)) =
  match image_to_string w img with Ok t => visible t | Err _ => [] end.
Proof.
  unfold ocr_page_text. destruct (image_to_string w img) as [t|e]; [|reflexivity].
  destruct (str_eqb (normalize_ws t) []) eqn:E; simpl;
    rewrite <- (visible_normalize_ws t); [|apply app_nil_r].
  apply str_eqb_spec in E. rewrite E. reflexivity.
Qed.

(** X6: once the PDF is rasterised, the OCR fallback's result holds every
    visible character Tesseract read, page after page in order; pages whose
    OCR raised contribute nothing. *)
Theorem parse_pdf_with_ocr_visible (w : world) (b : bytes) (imgs : list image) :
  convert_from_bytes w b = Ok imgs ->
  exists tr s, parse_pdf_with_ocr w b = (EvConvert b :: tr, Ok s) /\
    visible s = List.concat (map (fun img => match image_to_string w img with
                                             | Ok t => visible t
                                             | Err _ => []
                                             end) imgs).
Proof.
  intros Hc. destruct (ocr_pages_trace w imgs) as (tr & Heq & _ & _).
  unfold parse_pdf_with_ocr. rewrite Hc. cbn [bind try_except call ret]. rewrite Heq. cbn.
  eexists _, _; split; [reflexivity|].
  rewrite visible_join by reflexivity. rewrite flat_map_concat_map, concat_map, map_map.
  clear Hc Heq tr. induction imgs as [|img imgs IH]; [reflexivity|].
  simpl. rewrite concat_app, IH. f_equal. apply ocr_page_text_visible.
Qed.

(** ** Which calls reach the network *)

Definition is_get (e : event) : bool := match e with EvGet _ _ => true | _ => false end.
Definition is_robots_parse (e : event) : bool :=
  match e with EvRobotsParse _ _ => true | _ => false end.
Definition is_oracle (e : event) : bool := match e with EvOracle _ _ => true | _ => false end.

(** The events of the extractors: local library calls and diagnostics, no
    request, no robots.txt parse, no search, no classifier call. *)
Definition local_event (e : event) : bool :=
  match e with
  | EvPdfOpen _ | EvConvert _ | EvImageOpen _ | EvTesseract _ | EvSoup _ | EvDiag _ => true
  | EvGet _ _ | EvRobotsParse _ _ | EvSearch _ _ | EvOracle _ _ => false
  end.

Lemma local_bind {A B} (m : M A) (f : A -> M B) :
  forallb local_event (fst m) = true -> (forall a, forallb local_event (fst (f a)) = true) ->
  forallb local_event (fst (bind m f)) = true.
Proof.
  destruct m as [t [a|e]]; simpl; intros Hm Hf; [|exact Hm].
  specialize (Hf a). destruct (f a) as [t' r]; simpl in *.
  rewrite forallb_app, Hm, Hf. reflexivity.
Qed.

Lemma local_try {A} (m : M A) (h : exn -> M A) :
  forallb local_event (fst m) = true -> (forall e, forallb local_event (fst (h e)) = true) ->
  forallb local_event (fst (try_except m h)) = true.
Proof.
  destruct m as [t [a|e]]; simpl; intros Hm Hh; [exact Hm|].
  specialize (Hh e). destruct (h e) as [t' r]; simpl in *.
  rewrite forallb_app, Hm, Hh. reflexivity.
Qed.

Ltac local_tac :=
  repeat first
    [ reflexivity
    | assumption
    | apply local_bind; [|intro]
    | apply local_try; [|intro]
    | match goal with |- context [if ?b then _ else _] => destruct b end
    | match goal with |- context [match ?o with Some _ => _ | None => _ end] => destruct o end
    | match goal with |- context [match ?r with Ok _ => _ | Err _ => _ end] => destruct r end
    | match goal with e : exn |- _ => destruct e end ].

Section Local.
Variable w : world.

Lemma plumber_local b : forallb local_event (fst (parse_pdf_with_pdfplumber w b)) = true.
Proof. unfold parse_pdf_with_pdfplumber. local_tac. Qed.

Lemma ocr_pages_local imgs : forallb local_event (fst (ocr_pages w imgs)) = true.
Proof. induction imgs as [|img imgs IH]; simpl ocr_pages; local_tac. Qed.

Lemma ocr_local b : forallb local_event (fst (parse_pdf_with_ocr w b)) = true.
Proof. unfold parse_pdf_with_ocr. local_tac. apply ocr_pages_local. Qed.

Lemma image_local b : forallb local_event (fst (parse_image_with_ocr w b)) = true.
Proof. unfold parse_image_with_ocr. local_tac. Qed.

Lemma html_local h : forallb local_event (fst (parse_html w h)) = true.
Proof. unfold parse_html. local_tac. Qed.

Lemma try_call_shape {A X} (ev : event) (r : res X) (k : X -> M A) (h : exn -> M A) :
  (forall a, forallb local_event (fst (k a)) = true) ->
  (forall e, forallb local_event (fst (h e)) = true) ->
  exists rest, fst (try_except (bind (call ev r) k) h) = ev :: rest /\
               forallb local_event rest = true.
Proof.
  intros Hk Hh. destruct r as [a|e]; cbn [call bind].
  - specialize (Hk a). destruct (k a) as [t [b|e]]; cbn [try_except app] in *.
    + exists t; split; [reflexivity|exact Hk].
    + specialize (Hh e). destruct (h e) as [t' r']; cbn in *.
      exists (t ++ t'); split; [reflexivity|]. rewrite forallb_app, Hk, Hh. reflexivity.
  - cbn [try_except app]. specialize (Hh e). destruct (h e) as [t' r']; cbn in *.
    exists t'; split; [reflexivity|exact Hh].
Qed.

Lemma fetch_requests_shape url timeout :
  exists rest, fst (fetch_full_text_requests w url timeout) = EvGet url timeout :: rest /\
               forallb local_event rest = true.
Proof.
  unfold fetch_full_text_requests. apply try_call_shape.
  - intros resp. cbv beta zeta. local_tac;
      first [apply plumber_local | apply ocr_local | apply image_local | apply html_local
            | apply ocr_pages_local].
  - intros e. destruct e; reflexivity.
Qed.

Lemma local_no_get l : forallb local_event l = true -> filter is_get l = [].
Proof.
  induction l as [|e l IH]; [reflexivity|]. simpl. intros H.
  apply andb_true_iff in H as [He Hl]. destruct e; try discriminate; simpl; apply IH, Hl.
Qed.

Lemma local_no_oracle l : forallb local_event l = true -> filter is_oracle l = [].
Proof.
  induction l as [|e l IH]; [reflexivity|]. simpl. intros H.
  apply andb_true_iff in H as [He Hl]. destruct e; try discriminate; simpl; apply IH, Hl.
Qed.

Lemma can_crawl_trace url :
  filter is_get (fst (can_crawl w url)) =
    (if robots_parser_available w && negb (str_eqb (registered_domain w url) [])
     then [EvGet (robots_url (registered_domain w url)) 15] else []) /\
  forallb (fun e => is_get e || is_robots_parse e) (fst (can_crawl w url)) = true.
Proof.
  unfold can_crawl.
  destruct (robots_parser_available w); cbn -[robots_url]; [|split; reflexivity].
  destruct (str_eqb (registered_domain w url) []); cbn -[robots_url]; [split; reflexivity|].
  destruct (requests_get w (robots_url (registered_domain w url)) 15) as [resp|e];
    cbn -[robots_url]; [|split; reflexivity].
  destruct (Z.eqb (status_code resp) 200); cbn -[robots_url]; [|split; reflexivity].
  destruct (resp_text resp) as [txt|e]; cbn -[robots_url]; [|split; reflexivity].
  destruct (robots_is_allowed w txt url); cbn -[robots_url]; split; reflexivity.
Qed.

Lemma can_crawl_no_oracle url : filter is_oracle (fst (can_crawl w url)) = [].
Proof.
  destruct (can_crawl_trace url) as [_ H]. revert H.
  generalize (fst (can_crawl w url)). induction l as [|e l IH]; [reflexivity|]. simpl.
  intros H. apply andb_true_iff in H as [He Hl]. destruct e; try discriminate; simpl; apply IH, Hl.
Qed.

Lemma fetch_full_text_gets url timeout tr b :
  can_crawl w url = (tr, Ok b) ->
  filter is_get (fst (fetch_full_text w url timeout)) =
    filter is_get tr ++ (if b then [EvGet url timeout] else []) /\
  (b = false -> fetch_full_text w url timeout = (tr ++ [EvDiag (DRobotsDenied url)], Ok [])).
Proof.
  intros H. unfold fetch_full_text. rewrite H. cbn [bind]. destruct b; cbn [negb].
  - split; [|discriminate].
    destruct (fetch_requests_shape url timeout) as (rest & Hs & Hl).
    destruct (fetch_full_text_requests w url timeout) as [t r]. cbn in Hs |- *. subst t.
    rewrite filter_app. cbn. rewrite (local_no_get rest Hl). reflexivity.
  - cbn. split; [rewrite filter_app; reflexivity|reflexivity].
Qed.

Lemma fetch_full_text_no_oracle url timeout :
  filter is_oracle (fst (fetch_full_text w url timeout)) = [].
Proof.
  unfold fetch_full_text. pose proof (can_crawl_no_oracle url) as Hc.
  destruct (can_crawl w url) as [tr [b|e]]; cbn [bind fst] in *; [|exact Hc].
  destruct b; cbn [negb].
  - destruct (fetch_requests_shape url timeout) as (rest & Hs & Hl).
    destruct (fetch_full_text_requests w url timeout) as [t r]. cbn in Hs |- *. subst t.
    rewrite filter_app, Hc. cbn. apply local_no_oracle, Hl.
  - cbn. rewrite filter_app, Hc. reflexivity.
Qed.

End Local.

(** X7: [fetch_full_text_requests] makes exactly one HTTP request, to the
    url with the given timeout, and makes it first; everything after it is
    local parsing and diagnostics: no retry, no second request, no
    robots.txt lookup and no classifier call. *)
Theorem fetch_full_text_requests_single_request (w : world) (url : pystr) (timeout : Z) :
  exists rest, fst (fetch_full_text_requests w url timeout) = EvGet url timeout :: rest /\
    filter is_get rest = [] /\ forallb local_event rest = true.
Proof.
  destruct (fetch_requests_shape w url timeout) as (rest & H & Hl).
  exists rest. split; [exact H|]. split; [apply local_no_get, Hl|exact Hl].
Qed.


(** X9: [fetch_full_text] requests the url itself only when the robots gate
    answered [True]: its requests are the gate's followed by that one
    request.  When the gate answers [False] it returns [""] after the
    denial message, and the url is never requested. *)
Theorem fetch_full_text_requests_only_if_allowed (w : world) (url : pystr) (timeout : Z)
  (tr : list event) (allowed : bool) :
  can_crawl w url = (tr, Ok allowed) ->
  filter is_get (fst (fetch_full_text w url timeout)) =
    filter is_get tr ++ (if allowed then [EvGet url timeout] else []) /\
  (allowed = false ->
     fetch_full_text w url timeout = (tr ++ [EvDiag (DRobotsDenied url)], Ok [])).
Proof. apply fetch_full_text_gets. Qed.

(** ** The scorer and the pipeline *)

Lemma split_aux_length cur s :
  List.length (split_aux cur s) = S (count_occ ascii_dec s " "%char).
Proof.
  revert cur; induction s as [|c s IH]; intros cur; [reflexivity|].
  simpl split_aux. simpl count_occ.
  destruct (ascii_dec c " ") as [->|Hne].
  - rewrite Ascii.eqb_refl. simpl. rewrite IH. reflexivity.
  - apply Ascii.eqb_neq in Hne. rewrite Hne. apply IH.
Qed.

(** X13: on non-blank text the scorer raises [ValueError] without calling
    the classifier exactly when the label string contains no space; with a
    space in it the classifier is always called. *)
Theorem relate_score_value_error_iff_no_space (w : world) (t bl : pystr) :
  blank t = false ->
  (get_relate_domain_score w t bl = ([], Err ValueError) <-> ~ In " "%char bl).
Proof.
  intros Hb. pose proof (split_aux_length [] bl) as Hl. fold (split_space bl) in Hl.
  unfold get_relate_domain_score. rewrite Hb. split.
  - intros H Hin. apply (count_occ_In ascii_dec) in Hin.
    destruct (split_space bl) as [|l0 [|l1 rest]]; simpl in Hl; try lia.
    cbn in H. destruct (classifier w t [l0; l1]); cbn in H; [|discriminate].
    destruct (py_index _ _); cbn in H; discriminate.
  - intros Hn. apply (count_occ_not_In ascii_dec) in Hn. rewrite Hn in Hl.
    destruct (split_space bl) as [|l0 [|l1 rest]]; simpl in Hl; try discriminate.
    reflexivity.
Qed.

Section Scoring.
Variable w : world.

Lemma score_oracle_trace t bl tr q :
  blank t = false -> get_relate_domain_score w t bl = (tr, Ok q) ->
  filter is_oracle tr = [EvOracle t (firstn 2 (split_space bl))].
Proof.
  intros Hb. unfold get_relate_domain_score. rewrite Hb.
  destruct (split_space bl) as [|l0 [|l1 rest]]; cbn; try discriminate.
  destruct (classifier w t [l0; l1]) as [r|e]; cbn; [|discriminate].
  destruct (py_index (zsc_labels r) l0) as [i|e]; cbn; [|discriminate].
  intros H; injection H as <- _. reflexivity.
Qed.

Lemma fetch_blank_nil url timeout tr s :
  fetch_full_text w url timeout = (tr, Ok s) -> str_eqb s [] = false -> blank s = false.
Proof.
  intros Hf E. destruct (fetch_full_text_ok w url timeout) as (tr' & s' & Hf' & Hs).
  rewrite Hf in Hf'. injection Hf' as _ <-.
  destruct Hs as [-> | Hs]; [discriminate|exact Hs].
Qed.

Lemma process_hits_scores bl hits tr out :
  process_hits w bl hits = (tr, Ok out) ->
  filter is_oracle tr = map (fun x => EvOracle (full_text x) (firstn 2 (split_space bl))) out /\
  Forall (fun x => exists tr', get_relate_domain_score w (full_text x) bl =
                               (tr', Ok (academic_score x))) out.
Proof.
  revert tr out; induction hits as [|h hits IH]; intros tr out; simpl.
  - intros H; injection H as <- <-. split; [reflexivity|constructor].
  - destruct (fetch_full_text w (get_default (r_href h)) 10) as [tf [s|e]] eqn:Hf.
    2:{ destruct (fetch_full_text_ok w (get_default (r_href h)) 10) as (? & ? & Hf' & _).
        rewrite Hf in Hf'. discriminate. }
    pose proof (fetch_full_text_no_oracle w (get_default (r_href h)) 10) as Hno.
    rewrite Hf in Hno. cbn [fst] in Hno. cbn [bind].
    destruct (str_eqb s []) eqn:E; cbn.
    + destruct (process_hits w bl hits) as [t' r'] eqn:Hp. cbn.
      intros H; injection H as <- ->.
      destruct (IH t' out eq_refl) as [Ho Hs]. rewrite filter_app, Hno. split; [exact Ho|exact Hs].
    + destruct (get_relate_domain_score w s bl) as [ts [q|e]] eqn:Hs; cbn; [|discriminate].
      destruct (process_hits w bl hits) as [t' [out'|e]] eqn:Hp; cbn; [|discriminate].
      intros H; injection H as <- <-.
      destruct (IH t' out' eq_refl) as [Ho Hsc].
      rewrite !filter_app, Hno, (score_oracle_trace s bl ts q (fetch_blank_nil _ _ _ _ Hf E) Hs), Ho.
      cbn. rewrite app_nil_r. split; [reflexivity|]. constructor; [eexists; exact Hs|exact Hsc].
Qed.

Lemma score_ok_unit t bl :
  oracle_distribution w -> (2 <= List.length (split_space bl))%nat ->
  exists tr q, get_relate_domain_score w t bl = (tr, Ok q) /\ (0 <= q <= 1)%Q.
Proof.
  intros Hor Hlen. unfold get_relate_domain_score.
  destruct (blank t); [eexists _, _; split; [reflexivity|split; discriminate]|].
  destruct (split_space bl) as [|l0 [|l1 rest]]; simpl in Hlen; try lia.
  destruct (Hor t [l0; l1]) as (r & Hr & Hl & Hperm & Hall). rewrite Hr. cbn.
  assert (Hin : In l0 (zsc_labels r))
    by (apply (Permutation_in l0 (Permutation_sym Hperm)); left; reflexivity).
  destruct (py_index_In _ _ Hin) as (i & -> & Hi). cbn.
  destruct (py_nth (zsc_scores r) i) as [q|e] eqn:E.
  - eexists _, _; split; [reflexivity|].
    rewrite Forall_forall in Hall. apply Hall. eapply py_nth_In; eauto.
  - unfold py_nth in E. destruct (nth_error (zsc_scores r) i) eqn:E'; [discriminate|].
    apply nth_error_None in E'. lia.
Qed.

Lemma process_hits_total bl hits :
  oracle_distribution w -> (2 <= List.length (split_space bl))%nat ->
  exists tr out, process_hits w bl hits = (tr, Ok out) /\
    Forall (fun x => (0 <= academic_score x <= 1)%Q) out.
Proof.
  intros Hor Hlen. induction hits as [|h hits IH]; simpl.
  - eexists _, _; split; [reflexivity|constructor].
  - destruct IH as (t' & out' & Hp & Hall).
    destruct (fetch_full_text_ok w (get_default (r_href h)) 10) as (tf & s & Hf & _).
    rewrite Hf. cbn [bind].
    destruct (str_eqb s []); cbn.
    + rewrite Hp. cbn. eexists _, _; split; [reflexivity|exact Hall].
    + destruct (score_ok_unit s bl Hor Hlen) as (ts & q & Hs & Hq). rewrite Hs. cbn.
      rewrite Hp. cbn. eexists _, _; split; [reflexivity|constructor; [exact Hq|exact Hall]].
Qed.

End Scoring.

(** X10: the classifier is called once per returned record and for nothing
    else: the classifier calls of a completed run are, in order, one per
    record, on that record's [full_text], with the first two label tokens;
    a skipped hit costs no classifier call. *)
Theorem search_duckduckgo_one_oracle_call_per_record (w : world) (q bl : pystr) (n : nat)
  (tr : list event) (out : list result_record) :
  search_duckduckgo w q bl n = (tr, Ok out) ->
  filter is_oracle tr = map (fun x => EvOracle (full_text x) (firstn 2 (split_space bl))) out.
Proof.
  unfold search_duckduckgo, bind at 1, call.
  destruct (ddgs_text w q n) as [hits|e]; [|discriminate].
  destruct (process_hits w bl hits) as [t' r] eqn:Hp. intros H; injection H as <- ->.
  exact (proj1 (process_hits_scores w bl hits t' out Hp)).
Qed.

(** X11: every record's [academic_score] is what [get_relate_domain_score]
    returns on that record's own [full_text] and the run's label string. *)
Theorem search_duckduckgo_scores_own_text (w : world) (q bl : pystr) (n : nat)
  (tr : list event) (out : list result_record) :
  search_duckduckgo w q bl n = (tr, Ok out) ->
  Forall (fun x => exists tr', get_relate_domain_score w (full_text x) bl =
                               (tr', Ok (academic_score x))) out.
Proof.
  unfold search_duckduckgo, bind at 1, call.
  destruct (ddgs_text w q n) as [hits|e]; [|discriminate].
  destruct (process_hits w bl hits) as [t' r] eqn:Hp. intros H; injection H as _ ->.
  exact (proj2 (process_hits_scores w bl hits t' out Hp)).
Qed.

(** X12: with a label string of at least two tokens and a classifier that
    returns a distribution, [search_duckduckgo] raises only when the
    DuckDuckGo call itself raises (and then before any fetch); otherwise it
    returns, and every [academic_score] lies in [[0,1]]. *)
Theorem search_duckduckgo_raises_only_from_search (w : world) (q bl : pystr) (n : nat) :
  oracle_distribution w -> (2 <= List.length (split_space bl))%nat ->
  (forall hits, ddgs_text w q n = Ok hits ->
     exists tr out, search_duckduckgo w q bl n = (EvSearch q n :: tr, Ok out) /\
       Forall (fun x => (0 <= academic_score x <= 1)%Q) out) /\
  (forall e, ddgs_text w q n = Err e -> search_duckduckgo w q bl n = ([EvSearch q n], Err e)).
Proof.
  intros Hor Hlen. unfold search_duckduckgo, bind at 1, call. split.
  - intros hits ->. destruct (process_hits_total w bl hits Hor Hlen) as (tr & out & -> & Hall).
    eexists _, _; split; [reflexivity|exact Hall].
  - intros e ->. reflexivity.
Qed.

(** ** [main] *)

(** X15: a query that is empty or whitespace only ends [main] at once: one
    line is read, the message is printed, and nothing else happens (no
    further input, no search, no file written). *)
Theorem main_blank_query_stops (w : world) (c : console) (query : pystr) (rest : list pystr) :
  stdin c = query :: rest -> blank query = true ->
  main w c = ([CInput 0; CPrint MEmptyQuery], Ok tt).
Proof. intros Hs Hb. unfold main. rewrite Hs, Hb. reflexivity. Qed.

(** X16: an empty answer to the count prompt means five results: the run
    [main] records is [search_duckduckgo] with [max_results = 5], and it
    starts with the DuckDuckGo call for five results. *)
Theorem main_empty_count_means_five (w : world) (c : console)
  (query bl : pystr) (rest : list pystr) :
  stdin c = query :: bl :: [] :: rest -> blank query = false ->
  In (CPrint (MStart query 5)) (fst (main w c)) /\
  In (CRun (fst (search_duckduckgo w query bl 5))) (fst (main w c)) /\
  hd_error (fst (search_duckduckgo w query bl 5)) = Some (EvSearch query 5).
Proof.
  intros Hs Hb. unfold main. rewrite Hs, Hb. unfold main_count. cbn [str_eqb].
  assert (Hhd : hd_error (fst (search_duckduckgo w query bl 5)) = Some (EvSearch query 5)).
  { unfold search_duckduckgo, bind, call.
    destruct (ddgs_text w query 5) as [hits|e]; [|reflexivity].
    destruct (process_hits w bl hits); reflexivity. }
  split; [|split; [|exact Hhd]]; clear Hhd;
  destruct (search_duckduckgo w query bl 5) as [tr [[|x xs]|e]];
    try destruct (json_dump c (str "all_search_results.json") (x :: xs));
    cbn [fst app In]; tauto.
Qed.

(** X17: once the three lines are read and the count parsed, [main] writes
    a file exactly when the search returns a non-empty list, and what it
    writes is that list, to [all_search_results.json]; an empty result or
    an exception writes nothing. *)
Theorem main_writes_exactly_nonempty_results (w : world) (c : console)
  (query bl count : pystr) (rest : list pystr) (n : nat) :
  stdin c = query :: bl :: count :: rest -> blank query = false -> main_count c count = Ok n ->
  forall f rs, In (CDump f rs) (fst (main w c)) <->
    f = str "all_search_results.json" /\ rs <> [] /\
    snd (search_duckduckgo w query bl n) = Ok rs.
Proof.
  intros Hs Hb Hn f rs. unfold main. rewrite Hs, Hb, Hn.
  destruct (search_duckduckgo w query bl n) as [tr [[|x xs]|e]]; cbn [snd].
  - cbn [fst app In]. split.
    + intros H; repeat destruct H as [H|H]; discriminate || contradiction.
    + intros (_ & Hne & Heq). injection Heq as <-. contradiction.
  - destruct (json_dump c (str "all_search_results.json") (x :: xs)); cbn [fst app In];
      (split;
       [ intros H; repeat destruct H as [H|H]; try discriminate; try contradiction;
         injection H as <- <-; split; [reflexivity|split; [discriminate|reflexivity]]
       | intros (-> & _ & Heq); injection Heq as <-; tauto ]).
  - cbn [fst app In]. split.
    + intros H; repeat destruct H as [H|H]; discriminate || contradiction.
    + intros (_ & _ & Heq). discriminate.
Qed.

(** ** Instances of the properties above on the sample world *)

Module FurtherWitnesses.
Import Sample.

Definition pdf_hit_record : result_record :=
  {| title := str "A"; link := pdf_url; snippet := str "a pdf";
     full_text := str "Hello World"; academic_score := 1#2 |}.

Definition labels := str "Academic Other".

Lemma search_w0 :
  search_duckduckgo w0 (str "q") labels 5 =
    (fst (search_duckduckgo w0 (str "q") labels 5), Ok [pdf_hit_record]).
Proof. vm_compute. reflexivity. Qed.

Lemma parse_pdf_with_pdfplumber_pages_witness :
  pdf_pages_text w0 pdf_bytes = Ok [Some (str "Hello" ++ nl ++ str "World"); None] /\
  exists s, parse_pdf_with_pdfplumber w0 pdf_bytes = ([EvPdfOpen pdf_bytes], Ok s) /\
    visible s = List.concat (map (fun p => visible (get_default p))
                                 [Some (str "Hello" ++ nl ++ str "World"); None]) /\
    ws_normalized s = true.
Proof.
  split; [reflexivity|].
  exact (proj1 (parse_pdf_with_pdfplumber_pages w0 pdf_bytes) _ eq_refl).
Defined.

Lemma parse_pdf_with_pdfplumber_scanned_witness :
  pdf_pages_text w0 scanned_bytes = Ok [None] /\
  parse_pdf_with_pdfplumber w0 scanned_bytes = ([EvPdfOpen scanned_bytes], Ok []).
Proof.
  split; [reflexivity|].
  exact (parse_pdf_with_pdfplumber_scanned w0 scanned_bytes [None] eq_refl
           (Forall_cons (None : option pystr) eq_refl (Forall_nil _))).
Defined.

Lemma parse_pdf_with_ocr_visible_witness :
  convert_from_bytes w0 scanned_bytes = Ok [Image scanned_bytes; Image scanned_bytes] /\
  exists tr s, parse_pdf_with_ocr w0 scanned_bytes = (EvConvert scanned_bytes :: tr, Ok s) /\
    visible s = List.concat (map (fun img => match image_to_string w0 img with
                                             | Ok t => visible t
                                             | Err _ => []
                                             end) [Image scanned_bytes; Image scanned_bytes]).
Proof.
  split; [reflexivity|].
  exact (parse_pdf_with_ocr_visible w0 scanned_bytes _ eq_refl).
Defined.

Lemma fetch_full_text_requests_only_if_allowed_witness :
  can_crawl w0 blocked_url = (fst (can_crawl w0 blocked_url), Ok false) /\
  fetch_full_text w0 blocked_url 10 =
    (fst (can_crawl w0 blocked_url) ++ [EvDiag (DRobotsDenied blocked_url)], Ok []).
Proof.
  assert (H : can_crawl w0 blocked_url = (fst (can_crawl w0 blocked_url), Ok false))
    by (vm_compute; reflexivity).
  split; [exact H|].
  exact (proj2 (fetch_full_text_requests_only_if_allowed w0 blocked_url 10 _ false H) eq_refl).
Defined.

Lemma search_duckduckgo_one_oracle_call_per_record_witness :
  search_duckduckgo w0 (str "q") labels 5 =
    (fst (search_duckduckgo w0 (str "q") labels 5), Ok [pdf_hit_record]) /\
  filter is_oracle (fst (search_duckduckgo w0 (str "q") labels 5)) =
    [EvOracle (str "Hello World") (firstn 2 (split_space labels))].
Proof.
  split; [exact search_w0|].
  exact (search_duckduckgo_one_oracle_call_per_record w0 _ _ _ _ _ search_w0).
Defined.

Lemma search_duckduckgo_scores_own_text_witness :
  search_duckduckgo w0 (str "q") labels 5 =
    (fst (search_duckduckgo w0 (str "q") labels 5), Ok [pdf_hit_record]) /\
  Forall (fun x => exists tr', get_relate_domain_score w0 (full_text x) labels =
                               (tr', Ok (academic_score x))) [pdf_hit_record].
Proof.
  split; [exact search_w0|].
  exact (search_duckduckgo_scores_own_text w0 _ _ _ _ _ search_w0).
Defined.

Lemma search_duckduckgo_raises_only_from_search_witness :
  oracle_distribution w0 /\ (2 <= List.length (split_space labels))%nat /\
  exists tr out, search_duckduckgo w0 (str "q") labels 5 = (EvSearch (str "q") 5 :: tr, Ok out) /\
    Forall (fun x => (0 <= academic_score x <= 1)%Q) out.
Proof.
  assert (Hl : (2 <= List.length (split_space labels))%nat) by (vm_compute; lia).
  split; [exact Witnesses.oracle_distribution_w0|]. split; [exact Hl|].
  exact (proj1 (search_duckduckgo_raises_only_from_search w0 (str "q") labels 5
                  Witnesses.oracle_distribution_w0 Hl) hits eq_refl).
Defined.

Lemma relate_score_value_error_iff_no_space_witness :
  blank (str "hello") = false /\ ~ In " "%char (str "Academic") /\
  get_relate_domain_score w0 (str "hello") (str "Academic") = ([], Err ValueError).
Proof.
  assert (Hn : ~ In " "%char (str "Academic")) by (vm_compute; intuition discriminate).
  split; [reflexivity|]. split; [exact Hn|].
  exact (proj2 (relate_score_value_error_iff_no_space w0 (str "hello") (str "Academic")
                  eq_refl) Hn).
Defined.

Definition console_of (lines : list pystr) : console :=
  {| stdin := lines; int_of_str := fun _ => Err ValueError; json_dump := fun _ _ => Ok tt |}.

Lemma main_blank_query_stops_witness :
  main w0 (console_of [str "   "]) = ([CInput 0; CPrint MEmptyQuery], Ok tt).
Proof. exact (main_blank_query_stops w0 (console_of [str "   "]) _ [] eq_refl eq_refl). Defined.

Lemma main_empty_count_means_five_witness :
  In (CPrint (MStart (str "q") 5)) (fst (main w0 (console_of [str "q"; labels; []]))) /\
  In (CRun (fst (search_duckduckgo w0 (str "q") labels 5)))
     (fst (main w0 (console_of [str "q"; labels; []]))) /\
  hd_error (fst (search_duckduckgo w0 (str "q") labels 5)) = Some (EvSearch (str "q") 5).
Proof.
  exact (main_empty_count_means_five w0 (console_of [str "q"; labels; []]) _ _ [] eq_refl eq_refl).
Defined.

Lemma main_writes_exactly_nonempty_results_witness :
  In (CDump (str "all_search_results.json") [pdf_hit_record])
     (fst (main w0 (console_of [str "q"; labels; []]))) /\
  ~ In (CDump (str "all_search_results.json") [])
       (fst (main w0 (console_of [str "q"; labels; []]))).
Proof.
  pose proof (main_writes_exactly_nonempty_results w0 (console_of [str "q"; labels; []])
                (str "q") labels [] [] 5 eq_refl eq_refl eq_refl) as H.
  split.
  - apply H. split; [reflexivity|]. split; [discriminate|].
    rewrite search_w0. reflexivity.
  - intros Hin. apply H in Hin as (_ & Hne & _). apply Hne. reflexivity.
Defined.

End FurtherWitnesses.
